(** * The Cork: the cloud functions behind the wine cellar

    A shallow embedding of the three HTTP functions of [src/config.js]
    ([analyzeWineLabel], [searchWineImage], [health]) and of the
    [verifyAuth] middleware they share, with the properties of their
    request handling.

    Conventions of the embedding.
    - A JavaScript string is a Rocq [string], read as the bytes of the text
      in UTF-8, a surrogate that has no partner being written as the three
      bytes of its own code point (the encoding known as WTF-8), so that
      every JavaScript string has exactly one byte string.  Equality,
      [startsWith], [split] on an ASCII separator and the search for the
      ASCII braces are the same on these bytes as on the UTF-16 code
      units.  So is every concatenation the handlers make: between two
      texts that come from outside there is always ASCII text, so no two
      surrogates are ever joined into a pair.
    - A header or a configuration key, which is a string when it is there,
      is an [option string], [None] standing for [undefined].  A field of
      a request body is any JSON value or [undefined]: an [option JSON].
      [req.body] itself is taken to be an object, as the body parser of the
      platform leaves it; a body that is a string, a buffer or an array has
      none of the three fields the handlers read.
    - A handler is a computation in a state monad.  The state holds the
      mutable Express response object [res] and the trace of the calls made
      to the outside world (token verification, the vision model, the image
      search, the error log), which a [World] answers.
    - [JSON.parse] belongs to the language runtime and is a field of the
      [World]: the handlers are parametric in it, and the trace records the
      text each call receives. *)

From Stdlib Require Import String Ascii List ZArith Bool Lia DecimalString.
Import ListNotations.
Local Open Scope string_scope.
Local Open Scope Z_scope.
Set Warnings "-register-all".

(** ** JavaScript values *)

(** JSON values, as produced by [JSON.parse] and the body parser and
    consumed by [res.json].  The handlers never compute with a number: they
    test it for truth, render it as text or pass it on.  A number is held
    as its rendering by [Number.prototype.toString], which determines it
    up to the sign of zero. *)
Inductive JSON : Type :=
| JNull
| JBool (b : bool)
| JNum (rendering : string)
| JStr (s : string)
| JArr (items : list JSON)
| JObj (fields : list (string * JSON)).

(** ToBoolean on a possibly undefined string: [undefined] and the empty
    string are falsy, every other string is truthy. *)
Definition truthy (v : option string) : bool :=
  match v with
  | Some (String _ _) => true
  | _ => false
  end.

(** [s.startsWith(p)]. *)
Definition startsWith (s p : string) : bool := String.prefix p s.

(** A thrown JavaScript error; the handlers read only [error.message]. *)
Record Error : Type := mkError { message : string }.

(** ToBoolean on a JSON value: [null], [false], zero and the empty string
    are falsy, every other value is truthy, arrays and objects included. *)
Definition ToBoolean (v : JSON) : bool :=
  match v with
  | JNull => false
  | JBool b => b
  | JNum rendering => negb (rendering =? "0")%string && negb (rendering =? "NaN")%string
  | JStr EmptyString => false
  | JStr (String _ _) => true
  | JArr _ | JObj _ => true
  end.

(** ToBoolean on a field that may be [undefined]. *)
Definition truthy_value (v : option JSON) : bool :=
  match v with
  | Some x => ToBoolean x
  | None => false
  end.

(** The [TypeError] of a conversion to a primitive that finds no callable
    [toString] or [valueOf]. *)
Definition primitive_error : Error :=
  mkError "Cannot convert object to primitive value".

(** The text a template literal renders a JSON value as, [None] when the
    conversion throws.  An array is joined with commas, a [null] element
    giving the empty text.  An object is [[object Object]], unless it has
    a field [toString] of its own: that field is no function,
    [Object.prototype.valueOf] returns the object itself, and the
    conversion throws. *)
Fixpoint render (v : JSON) : option string :=
  match v with
  | JNull => Some "null"
  | JBool true => Some "true"
  | JBool false => Some "false"
  | JNum rendering => Some rendering
  | JStr s => Some s
  | JArr items =>
      (fix join (l : list JSON) : option string :=
         match l with
         | [] => Some ""
         | x :: rest =>
             match (match x with JNull => Some "" | _ => render x end) with
             | None => None
             | Some first =>
                 match rest with
                 | [] => Some first
                 | _ :: _ =>
                     match join rest with
                     | None => None
                     | Some others => Some (first ++ "," ++ others)
                     end
                 end
             end
         end) items
  | JObj fields =>
      if existsb (fun f => (fst f =? "toString")%string) fields
      then None
      else Some "[object Object]"
  end.

(** ToString, with the [TypeError] of a failed conversion. *)
Definition ToString (v : JSON) : Error + string :=
  match render v with
  | Some rendered => inr rendered
  | None => inl primitive_error
  end.

(** [v === s] for a string literal [s]. *)
Definition strict_eq (v : JSON) (s : string) : bool :=
  match v with
  | JStr t => (t =? s)%string
  | _ => false
  end.

(** [s.split(sep)] for a non-empty separator.  [skip] counts the characters
    of a separator occurrence still to be dropped and [cur] holds the piece
    being read, last character first. *)
Fixpoint rev_string (acc s : string) : string :=
  match s with
  | EmptyString => acc
  | String c s' => rev_string (String c acc) s'
  end.

Fixpoint split_go (sep : string) (skip : nat) (cur s : string) : list string :=
  match s with
  | EmptyString => [rev_string "" cur]
  | String c s' =>
      match skip with
      | S k => split_go sep k cur s'
      | O =>
          if String.prefix sep s
          then rev_string "" cur :: split_go sep (String.length sep - 1) "" s'
          else split_go sep 0 (String c cur) s'
      end
  end.

Definition split (s sep : string) : list string := split_go sep 0 "" s.

(** ** The regular expression [/\{[\s\S]*\}/]

    [content.match(re)] without the [g] flag returns the leftmost match, the
    star taking as many characters as it can. *)

(** The longest prefix of [s] that ends with a closing brace: what
    [[\s\S]*\}] matches at the start of [s], the greedy star giving back
    characters until a closing brace follows. *)
Fixpoint star_then_close (s : string) : option string :=
  match s with
  | EmptyString => None
  | String c s' =>
      match star_then_close s' with
      | Some m => Some (String c m)
      | None => if Ascii.eqb c "}" then Some "}" else None
      end
  end.

(** The match of the whole pattern anchored at the start of [s]. *)
Definition match_here (s : string) : option string :=
  match s with
  | String c s' =>
      if Ascii.eqb c "{"
      then option_map (String "{") (star_then_close s')
      else None
  | EmptyString => None
  end.

(** [content.match(/\{[\s\S]*\}/)]: the start positions are tried from left
    to right; [Some m] is [jsonMatch[0]], [None] is [null]. *)
Fixpoint regex_match (s : string) : option string :=
  match match_here s with
  | Some m => Some m
  | None =>
      match s with
      | EmptyString => None
      | String _ s' => regex_match s'
      end
  end.

(** [encodeURIComponent(s)] on the bytes of [s]: the unreserved characters
    [A-Z a-z 0-9 - _ . ! ~ * ' ( )] stay, every other byte becomes [%XX]
    with upper-case hexadecimal digits.  A surrogate without partner makes
    the call throw a [URIError]; in the bytes of [s] it is a byte [ED]
    followed by a byte from [A0] to [BF]. *)
Definition uri_unreserved (c : ascii) : bool :=
  let n := nat_of_ascii c in
  ((65 <=? n) && (n <=? 90) || (97 <=? n) && (n <=? 122) ||
   (48 <=? n) && (n <=? 57))%nat ||
  existsb (Ascii.eqb c) (list_ascii_of_string "-_.!~*'()").

Definition hex_digit (n : nat) : ascii :=
  nth n (list_ascii_of_string "0123456789ABCDEF") "0"%char.

Definition percent_encode (c : ascii) : string :=
  let n := nat_of_ascii c in
  String "%" (String (hex_digit (n / 16)) (String (hex_digit (n mod 16)) "")).

Fixpoint percent_encode_all (s : string) : string :=
  match s with
  | EmptyString => ""
  | String c s' =>
      (if uri_unreserved c then String c "" else percent_encode c)
      ++ percent_encode_all s'
  end.

Fixpoint has_lone_surrogate (s : string) : bool :=
  match s with
  | EmptyString => false
  | String c s' =>
      ((nat_of_ascii c =? 237)%nat &&
       match s' with
       | String d _ => ((160 <=? nat_of_ascii d) && (nat_of_ascii d <=? 191))%nat
       | EmptyString => false
       end)
      || has_lone_surrogate s'
  end.

Definition uri_error : Error := mkError "URI malformed".

Definition encodeURIComponent (s : string) : Error + string :=
  if has_lone_surrogate s then inl uri_error else inr (percent_encode_all s).

(** ** Requests, responses and configuration *)

(** The fields the handlers read from [req.body]: each one any JSON
    value, or [None] when the body has no such field. *)
Record Body : Type := mkBody {
  imageBase64 : option JSON;
  query : option JSON;
  type : option JSON
}.

(** The parts of the Express request the handlers read;
    [authorization] is [req.headers.authorization]. *)
Record Request : Type := mkRequest {
  method : string;
  authorization : option string;
  body : Body
}.

(** What was sent: [res.send(text)] or [res.json(value)]. *)
Inductive Sent : Type :=
| SentText (text : string)
| SentJson (value : JSON).

(** The Express response object: the status, the headers set by the
    handler and the bodies sent, in order.  A fresh one has status 200, no
    header and nothing sent. *)
Record Res : Type := mkRes {
  statusCode : Z;
  headers : list (string * string);
  sent : list Sent
}.

Definition fresh_res : Res := mkRes 200 [] [].

(** [functions.config()]: two optional sections with optional keys. *)
Record OpenAIConfig : Type := mkOpenAIConfig { key : option string }.
Record GoogleConfig : Type := mkGoogleConfig {
  apikey : option string;
  cx : option string
}.
Record FunctionsConfig : Type := mkFunctionsConfig {
  openai : option OpenAIConfig;
  google : option GoogleConfig
}.

(** ** The outside world *)

(** The decoded token [admin.auth().verifyIdToken] resolves to. *)
Record DecodedIdToken : Type := mkDecodedIdToken { uid : string }.

(** The argument of [openai.chat.completions.create]: one user message
    with a text part and an image part. *)
Record ChatRequest : Type := mkChatRequest {
  model : string;
  text : string;
  image_url : string;
  max_tokens : Z
}.

(** The body of a custom-search answer, by the provider's schema: an
    optional list of items, each with a link. *)
Record SearchItem : Type := mkSearchItem { link : string }.
Record SearchData : Type := mkSearchData { items : option (list SearchItem) }.

(** The runtime and the three services.  [inl e] is a call that throws or
    a promise that rejects with [e].
    - [chat_completions_create apiKey r] stands for the awaited call on a
      client built with [apiKey], followed by the read of
      [response.choices[0].message.content]; the content is a string or
      [null].
    - [fetch_json url] stands for [fetch(url)] followed by
      [response.json()]. *)
Record World : Type := mkWorld {
  JSON_parse : string -> Error + JSON;
  verifyIdToken : option string -> Error + DecodedIdToken;
  chat_completions_create : string -> ChatRequest -> Error + option string;
  fetch_json : string -> Error + SearchData
}.

(** One entry of the trace of a run. *)
Inductive Call : Type :=
| CallVerifyIdToken (idToken : option string)
| CallOpenAI (apiKey : string) (r : ChatRequest)
| CallFetch (url : string)
| CallJSONParse (source : string)
| CallConsoleError (label : string) (e : Error).

(** The calls to the paid upstream APIs. *)
Definition is_upstream (c : Call) : bool :=
  match c with
  | CallOpenAI _ _ | CallFetch _ => true
  | CallVerifyIdToken _ | CallJSONParse _ | CallConsoleError _ _ => false
  end.

(** ** The handler monad *)

Record St : Type := mkSt { res : Res; trace : list Call }.

Definition M (A : Type) : Type := St -> A * St.

Definition ret {A} (a : A) : M A := fun st => (a, st).

Definition bind {A B} (m : M A) (k : A -> M B) : M B :=
  fun st => let (a, st') := m st in k a st'.

Declare Scope handler_scope.
Delimit Scope handler_scope with handler.
Notation "x <- m ;; k" := (bind m (fun x => k))
  (at level 61, m at next level, right associativity) : handler_scope.
Notation "m ;; k" := (bind m (fun _ => k))
  (at level 61, right associativity) : handler_scope.
Local Open Scope handler_scope.

Definition modify_res (f : Res -> Res) : M unit :=
  fun st => (tt, mkSt (f (res st)) (trace st)).

Definition record (c : Call) : M unit :=
  fun st => (tt, mkSt (res st) (trace st ++ [c])).

(** [res.set(name, value)] replaces the header [name]. *)
Definition set_header (name value : string) (hs : list (string * string))
  : list (string * string) :=
  filter (fun h => negb (fst h =? name)%string) hs ++ [(name, value)].

Definition res_set (name value : string) : M unit :=
  modify_res (fun r => mkRes (statusCode r) (set_header name value (headers r)) (sent r)).

(** [res.status(code)]. *)
Definition res_status (code : Z) : M unit :=
  modify_res (fun r => mkRes code (headers r) (sent r)).

(** [res.send(text)] and [res.json(value)]. *)
Definition res_send (t : string) : M unit :=
  modify_res (fun r => mkRes (statusCode r) (headers r) (sent r ++ [SentText t])).

Definition res_json (v : JSON) : M unit :=
  modify_res (fun r => mkRes (statusCode r) (headers r) (sent r ++ [SentJson v])).

(** [console.error(label, e)]. *)
Definition console_error (label : string) (e : Error) : M unit :=
  record (CallConsoleError label e).

(** A run of a handler on a fresh response object and an empty trace. *)
Definition run (h : M unit) : St := snd (h (mkSt fresh_res [])).
Definition response (h : M unit) : Res := res (run h).
Definition calls (h : M unit) : list Call := trace (run h).

(** ** The source: [verifyAuth] and the three functions *)

(** The double quote and the line feed, for the texts that contain them. *)
Definition dq : ascii := "034"%char.
Definition lf : ascii := "010"%char.
Definition quoted (s : string) : string := String dq (s ++ String dq "").
Definition unlines (ls : list string) : string := String.concat (String lf "") ls.

(** The instruction sent with every label image. *)
Definition PROMPT : string := unlines [
  "Analyze this wine label image and extract the following information in JSON format:";
  "{";
  "    " ++ quoted "name" ++ ": " ++ quoted "wine name" ++ ",";
  "    " ++ quoted "producer" ++ ": " ++ quoted "producer/house name" ++ ",";
  "    " ++ quoted "year" ++ ": year as number or null,";
  "    " ++ quoted "region" ++ ": " ++ quoted "region, country" ++ ",";
  "    " ++ quoted "grape" ++ ": " ++ quoted "grape variety/varieties" ++ ",";
  "    " ++ quoted "type" ++ ": " ++ quoted "red/white/rosé/sparkling/dessert" ++ ",";
  "    " ++ quoted "characteristics" ++ ": {";
  "        " ++ quoted "boldness" ++ ": 1-5,";
  "        " ++ quoted "tannins" ++ ": 1-5,";
  "        " ++ quoted "acidity" ++ ": 1-5";
  "    },";
  "    " ++ quoted "notes" ++ ": " ++ quoted "brief tasting notes or description" ++ ",";
  "    " ++ quoted "estimatedPrice" ++ ": " ++ quoted "estimated price range in euros";
  "}";
  "";
  "If you cannot determine a value, use null. For type, make your best guess based on the wine name/region.";
  "Only respond with the JSON, no other text."
].

(** [a && b] on possibly undefined strings. *)
Definition js_and (a b : option string) : option string :=
  if truthy a then b else a.

(** [v || ''] on a field that may be [undefined]. *)
Definition or_empty (v : option JSON) : JSON :=
  match v with
  | Some x => if ToBoolean x then x else JStr ""
  | None => JStr ""
  end.

(** The category keyword of the image search; the template literal of the
    last case but one throws when [wineType] cannot be rendered. *)
Definition typeKeyword (wineType : JSON) : Error + string :=
  if strict_eq wineType "rosé" then inr "rosé wine"
  else if strict_eq wineType "sparkling" then inr "sparkling wine champagne"
  else if strict_eq wineType "dessert" then inr "dessert wine"
  else if ToBoolean wineType then
    match ToString wineType with
    | inr rendered => inr (rendered ++ " wine")
    | inl error => inl error
    end
  else inr "wine".

(** The search text: the keyword is computed first, then the template
    literal renders the query. *)
Definition searchQuery (q : JSON) (t : option JSON) : Error + string :=
  match typeKeyword (or_empty t) with
  | inl error => inl error
  | inr keyword =>
      match ToString q with
      | inl error => inl error
      | inr rendered => inr (rendered ++ " " ++ keyword ++ " bottle")
      end
  end.

(** The address of the search request; [encodeURIComponent] may throw. *)
Definition searchUrl (googleApiKey googleCx sq : string) : Error + string :=
  match encodeURIComponent sq with
  | inl error => inl error
  | inr encoded =>
      inr ("https://www.googleapis.com/customsearch/v1?key=" ++ googleApiKey ++
           "&cx=" ++ googleCx ++ "&q=" ++ encoded ++
           "&searchType=image&num=1&imgType=photo")
  end.

(** The image part of the chat request. *)
Definition dataUri (image : string) : string :=
  if startsWith image "data:" then image
  else "data:image/jpeg;base64," ++ image.

Definition chatRequest (image : string) : ChatRequest :=
  mkChatRequest "gpt-4o" PROMPT (dataUri image) 1000.

(** The string whose [startsWith] is called: on a value that is no string
    the call throws a [TypeError], whatever the value is. *)
Definition startsWith_error : Error :=
  mkError "imageBase64.startsWith is not a function".

Definition startsWith_receiver (v : JSON) : Error + string :=
  match v with
  | JStr s => inr s
  | _ => inl startsWith_error
  end.

(** The [TypeError] of [content.match] on a [null] content. *)
Definition null_match_error : Error :=
  mkError "Cannot read properties of null (reading 'match')".

Section Handlers.

Variable W : World.
Variable config : FunctionsConfig.

Definition getOpenAIKey : option string :=
  match openai config with Some o => key o | None => None end.
Definition getGoogleApiKey : option string :=
  match google config with Some g => apikey g | None => None end.
Definition getGoogleCx : option string :=
  match google config with Some g => cx g | None => None end.

Definition await_verifyIdToken (idToken : option string) : M (Error + DecodedIdToken) :=
  record (CallVerifyIdToken idToken) ;; ret (verifyIdToken W idToken).

Definition await_create (apiKey : string) (r : ChatRequest) : M (Error + option string) :=
  record (CallOpenAI apiKey r) ;; ret (chat_completions_create W apiKey r).

Definition await_fetch_json (url : string) : M (Error + SearchData) :=
  record (CallFetch url) ;; ret (fetch_json W url).

Definition call_JSON_parse (source : string) : M (Error + JSON) :=
  record (CallJSONParse source) ;; ret (JSON_parse W source).

(** Middleware to verify Firebase Auth: the decoded token, or [None] for
    [null] once the 401 has been sent. *)
Definition verifyAuth (req : Request) : M (option DecodedIdToken) :=
  let noToken :=
    res_status 401 ;;
    res_json (JObj [("error", JStr "Unauthorized - No token provided")]) ;;
    ret None in
  match authorization req with
  | None => noToken
  | Some authHeader =>
      if negb (truthy (Some authHeader)) || negb (startsWith authHeader "Bearer ")
      then noToken
      else
        let idToken := nth_error (split authHeader "Bearer ") 1 in
        r <- await_verifyIdToken idToken ;;
        match r with
        | inr decodedToken => ret (Some decodedToken)
        | inl error =>
            console_error "Auth error:" error ;;
            res_status 401 ;;
            res_json (JObj [("error", JStr "Unauthorized - Invalid token")]) ;;
            ret None
        end
  end.

(** The three CORS headers of the two protected functions. *)
Definition cors : M unit :=
  res_set "Access-Control-Allow-Origin" "*" ;;
  res_set "Access-Control-Allow-Methods" "POST, OPTIONS" ;;
  res_set "Access-Control-Allow-Headers" "Content-Type, Authorization".

(** The parse of the model's reply: [inl] is what the inner [catch]
    receives. *)
Definition parseWineData (content : option string) : M (Error + JSON) :=
  match content with
  | None => ret (inl null_match_error)
  | Some c =>
      match regex_match c with
      | Some jsonMatch0 => call_JSON_parse jsonMatch0
      | None => call_JSON_parse c
      end
  end.

Definition raw_of (content : option string) : JSON :=
  match content with Some c => JStr c | None => JNull end.

Definition analyzeWineLabel (req : Request) : M unit :=
  cors ;;
  if (method req =? "OPTIONS")%string then res_status 204 ;; res_send ""
  else if negb (method req =? "POST")%string then
    res_status 405 ;; res_json (JObj [("error", JStr "Method not allowed")])
  else
    user <- verifyAuth req ;;
    match user with
    | None => ret tt
    | Some _ =>
        match getOpenAIKey with
        | Some (String _ _ as openaiKey) =>
            (* the outer [catch] *)
            let failed (error : Error) :=
              console_error "OpenAI error:" error ;;
              res_status 500 ;;
              res_json (JObj [("error", JStr "Failed to analyze image");
                              ("message", JStr (message error))]) in
            let noImage :=
              res_status 400 ;; res_json (JObj [("error", JStr "No image provided")]) in
            match imageBase64 (body req) with
            | Some imageValue =>
                if ToBoolean imageValue then
                  match startsWith_receiver imageValue with
                  | inr image =>
                      r <- await_create openaiKey (chatRequest image) ;;
                      match r with
                      | inr content =>
                          parsed <- parseWineData content ;;
                          match parsed with
                          | inr wineData =>
                              res_json (JObj [("success", JBool true);
                                              ("data", wineData)])
                          | inl parseError =>
                              console_error "JSON parse error:" parseError ;;
                              res_status 500 ;;
                              res_json (JObj [("error", JStr "Failed to parse wine data");
                                              ("raw", raw_of content)])
                          end
                      | inl error => failed error
                      end
                  | inl error => failed error
                  end
                else noImage
            | None => noImage
            end
        | _ =>
            res_status 500 ;;
            res_json (JObj [("error", JStr "OpenAI API not configured")])
        end
    end.

Definition searchWineImage (req : Request) : M unit :=
  cors ;;
  if (method req =? "OPTIONS")%string then res_status 204 ;; res_send ""
  else if negb (method req =? "POST")%string then
    res_status 405 ;; res_json (JObj [("error", JStr "Method not allowed")])
  else
    user <- verifyAuth req ;;
    match user with
    | None => ret tt
    | Some _ =>
        match getGoogleApiKey, getGoogleCx with
        | Some (String _ _ as googleApiKey), Some (String _ _ as googleCx) =>
            (* the [catch] *)
            let failed (error : Error) :=
              console_error "Google search error:" error ;;
              res_status 500 ;;
              res_json (JObj [("error", JStr "Failed to search images");
                              ("message", JStr (message error))]) in
            let noQuery :=
              res_status 400 ;;
              res_json (JObj [("error", JStr "No search query provided")]) in
            match query (body req) with
            | Some q =>
                if ToBoolean q then
                  match searchQuery q (type (body req)) with
                  | inr sq =>
                      match searchUrl googleApiKey googleCx sq with
                      | inr url =>
                          r <- await_fetch_json url ;;
                          match r with
                          | inr data =>
                              match items data with
                              | Some (item0 :: _) =>
                                  res_json (JObj [("success", JBool true);
                                                  ("imageUrl", JStr (link item0))])
                              | _ =>
                                  res_json (JObj [("success", JBool true);
                                                  ("imageUrl", JNull);
                                                  ("message", JStr "No images found")])
                              end
                          | inl error => failed error
                          end
                      | inl error => failed error
                      end
                  | inl error => failed error
                  end
                else noQuery
            | None => noQuery
            end
        | _, _ =>
            res_json (JObj [("success", JBool true); ("imageUrl", JNull);
                            ("message", JStr "Google Image Search not configured")])
        end
    end.

Definition health (req : Request) : M unit :=
  res_set "Access-Control-Allow-Origin" "*" ;;
  res_json (JObj [("status", JStr "ok");
                  ("openaiConfigured", JBool (truthy getOpenAIKey));
                  ("googleConfigured", JBool (truthy (js_and getGoogleApiKey getGoogleCx)))]).

(** The three exported functions. *)
Inductive Endpoint : Type := AnalyzeWineLabel | SearchWineImage | Health.

Definition handler (ep : Endpoint) (req : Request) : M unit :=
  match ep with
  | AnalyzeWineLabel => analyzeWineLabel req
  | SearchWineImage => searchWineImage req
  | Health => health req
  end.

End Handlers.

(** The functions that call [verifyAuth]. *)
Definition protected (ep : Endpoint) : bool :=
  match ep with
  | AnalyzeWineLabel | SearchWineImage => true
  | Health => false
  end.

(** ** A runtime for the examples

    A [JSON.parse] for the part of JSON the examples use: objects, arrays,
    strings without escape sequences, integers of a few digits, [true],
    [false] and [null].
    Every other text is a syntax error.  The theorems below hold for every
    [World]; this one serves to run the handlers on concrete replies. *)

Definition is_ws (c : ascii) : bool :=
  existsb (Ascii.eqb c) [" "%char; "009"%char; "010"%char; "013"%char].

Fixpoint skip_ws (s : string) : string :=
  match s with
  | String c s' => if is_ws c then skip_ws s' else s
  | EmptyString => s
  end.

(** The characters up to the closing quote, and what follows it. *)
Fixpoint read_string (s : string) : option (string * string) :=
  match s with
  | EmptyString => None
  | String c s' =>
      if Ascii.eqb c dq then Some ("", s')
      else if Ascii.eqb c "\" then None
      else match read_string s' with
           | Some (t, rest) => Some (String c t, rest)
           | None => None
           end
  end.

Definition digit_of (c : ascii) : option Z :=
  let n := nat_of_ascii c in
  if ((48 <=? n) && (n <=? 57))%nat then Some (Z.of_nat n - 48) else None.

Fixpoint read_digits (acc : Z) (s : string) : Z * string :=
  match s with
  | String c s' =>
      match digit_of c with
      | Some d => read_digits (10 * acc + d) s'
      | None => (acc, s)
      end
  | EmptyString => (acc, s)
  end.

(** The rendering of an integer by [Number.prototype.toString]. *)
Definition render_integer (n : Z) : string := NilEmpty.string_of_int (Z.to_int n).

Definition read_number (s : string) : option (Z * string) :=
  match s with
  | String c s' =>
      if Ascii.eqb c "-" then
        match s' with
        | String d _ =>
            match digit_of d with
            | Some _ => let (n, rest) := read_digits 0 s' in Some (- n, rest)
            | None => None
            end
        | EmptyString => None
        end
      else
        match digit_of c with
        | Some _ => Some (read_digits 0 s)
        | None => None
        end
  | EmptyString => None
  end.

Definition read_word (w : string) (v : JSON) (s : string) : option (JSON * string) :=
  if String.prefix w s
  then Some (v, String.substring (String.length w) (String.length s - String.length w) s)
  else None.

Fixpoint read_value (fuel : nat) (s : string) : option (JSON * string) :=
  match fuel with
  | O => None
  | S fuel' =>
      match skip_ws s with
      | EmptyString => None
      | String c s' =>
          if Ascii.eqb c "{" then
            match skip_ws s' with
            | String "}" rest => Some (JObj [], rest)
            | _ =>
                match read_members fuel' s' with
                | Some (fs, rest) => Some (JObj fs, rest)
                | None => None
                end
            end
          else if Ascii.eqb c "[" then
            match skip_ws s' with
            | String "]" rest => Some (JArr [], rest)
            | _ =>
                match read_elements fuel' s' with
                | Some (vs, rest) => Some (JArr vs, rest)
                | None => None
                end
            end
          else if Ascii.eqb c dq then
            match read_string s' with
            | Some (t, rest) => Some (JStr t, rest)
            | None => None
            end
          else if Ascii.eqb c "t" then read_word "true" (JBool true) (String c s')
          else if Ascii.eqb c "f" then read_word "false" (JBool false) (String c s')
          else if Ascii.eqb c "n" then read_word "null" JNull (String c s')
          else
            match read_number (String c s') with
            | Some (n, rest) => Some (JNum (render_integer n), rest)
            | None => None
            end
      end
  end
with read_members (fuel : nat) (s : string) : option (list (string * JSON) * string) :=
  match fuel with
  | O => None
  | S fuel' =>
      match skip_ws s with
      | String c s1 =>
          if Ascii.eqb c dq then
            match read_string s1 with
            | Some (k, s2) =>
                match skip_ws s2 with
                | String ":" s3 =>
                    match read_value fuel' s3 with
                    | Some (v, s4) =>
                        match skip_ws s4 with
                        | String "," s5 =>
                            match read_members fuel' s5 with
                            | Some (fs, rest) => Some ((k, v) :: fs, rest)
                            | None => None
                            end
                        | String "}" rest => Some ([(k, v)], rest)
                        | _ => None
                        end
                    | None => None
                    end
                | _ => None
                end
            | None => None
            end
          else None
      | EmptyString => None
      end
  end
with read_elements (fuel : nat) (s : string) : option (list JSON * string) :=
  match fuel with
  | O => None
  | S fuel' =>
      match read_value fuel' s with
      | Some (v, s1) =>
          match skip_ws s1 with
          | String "," s2 =>
              match read_elements fuel' s2 with
              | Some (vs, rest) => Some (v :: vs, rest)
              | None => None
              end
          | String "]" rest => Some ([v], rest)
          | _ => None
          end
      | None => None
      end
  end.

Definition parse_json (s : string) : Error + JSON :=
  match read_value (2 * String.length s + 2) s with
  | Some (v, rest) =>
      match skip_ws rest with
      | EmptyString => inr v
      | _ => inl (mkError "Unexpected non-whitespace character after JSON")
      end
  | None => inl (mkError "Unexpected token in JSON")
  end.

(** ** Vocabulary of the properties *)

(** [c] occurs in [s]. *)
Fixpoint has_char (c : ascii) (s : string) : bool :=
  match s with
  | EmptyString => false
  | String d s' => Ascii.eqb d c || has_char c s'
  end.

(** A text without braces. *)
Definition brace_free (s : string) : bool :=
  negb (has_char "{" s) && negb (has_char "}" s).

(** [s] occurs in [t] as a substring. *)
Fixpoint occurs_in (s t : string) : bool :=
  String.prefix s t ||
  match t with
  | EmptyString => false
  | String _ t' => occurs_in s t'
  end.

(** [s] occurs in a key or in a string of a JSON value. *)
Fixpoint contains_text (s : string) (v : JSON) : bool :=
  match v with
  | JStr t => occurs_in s t
  | JArr vs => existsb (contains_text s) vs
  | JObj fs => existsb (fun f => occurs_in s (fst f) || contains_text s (snd f)) fs
  | JNull | JBool _ | JNum _ => false
  end.

(** A configuration value or body field that is set: a non-empty string. *)
Definition present (v : option string) : Prop :=
  exists c s, v = Some (String c s).

(** The model key is set in the configuration: there is an [openai]
    section, and its [key] is a non-empty string. *)
Definition openai_key_set (config : FunctionsConfig) : Prop :=
  exists section, openai config = Some section /\ present (key section).

(** Both search credentials are set: there is a [google] section, and its
    [apikey] and [cx] are non-empty strings. *)
Definition search_credentials_set (config : FunctionsConfig) : Prop :=
  exists section,
    google config = Some section /\
    present (apikey section) /\ present (cx section).

(** The headers [cors] leaves on a fresh response. *)
Definition cors_headers : list (string * string) :=
  [("Access-Control-Allow-Origin", "*");
   ("Access-Control-Allow-Methods", "POST, OPTIONS");
   ("Access-Control-Allow-Headers", "Content-Type, Authorization")].

(** The token [verifyAuth] extracts from a header. *)
Definition idToken_of (authHeader : string) : option string :=
  nth_error (split authHeader "Bearer ") 1.

(** [verifyAuth] lets the request through as principal [p]. *)
Definition accepts (W : World) (req : Request) (p : DecodedIdToken) : Prop :=
  exists authHeader,
    authorization req = Some authHeader /\
    startsWith authHeader "Bearer " = true /\
    verifyIdToken W (idToken_of authHeader) = inr p.

(** No call of the trace goes to a paid upstream API. *)
Definition no_upstream (cs : list Call) : Prop :=
  forallb (fun c => negb (is_upstream c)) cs = true.

(** The request reaches the vision model, which answers [reply]: a POST
    that [verifyAuth] lets through, a configured key [k], an image [img]
    in the body. *)
Definition model_replies (W : World) (config : FunctionsConfig) (req : Request)
  (k img : string) (reply : Error + option string) : Prop :=
  method req = "POST" /\
  (exists p, accepts W req p) /\
  getOpenAIKey config = Some k /\ k <> "" /\
  imageBase64 (body req) = Some (JStr img) /\ img <> "" /\
  chat_completions_create W k (chatRequest img) = reply.

(** The text [analyzeWineLabel] hands to [JSON.parse] for a reply: the
    match of the brace pattern, or the whole reply when there is none. *)
Definition parse_target (content : string) : string :=
  match regex_match content with
  | Some jsonMatch0 => jsonMatch0
  | None => content
  end.

(** The 200 answer of a successful label analysis. *)
Definition analysis_ok (wineData : JSON) : Res :=
  mkRes 200 cors_headers
        [SentJson (JObj [("success", JBool true); ("data", wineData)])].

(** The 500 answer to a reply that does not parse. *)
Definition parse_failure (content : string) : Res :=
  mkRes 500 cors_headers
        [SentJson (JObj [("error", JStr "Failed to parse wine data");
                         ("raw", JStr content)])].

(** The body of the health report. *)
Definition health_body (openaiConfigured googleConfigured : bool) : JSON :=
  JObj [("status", JStr "ok");
        ("openaiConfigured", JBool openaiConfigured);
        ("googleConfigured", JBool googleConfigured)].

(** The keys and message texts the handlers write into error bodies. *)
Definition fixed_texts : list string :=
  ["error"; "message"; "raw";
   "Unauthorized - No token provided"; "Unauthorized - Invalid token";
   "Method not allowed"; "OpenAI API not configured"; "No image provided";
   "Failed to parse wine data"; "Failed to analyze image";
   "No search query provided"; "Failed to search images"].

(** The texts the upstream services supplied in answer to the calls of a
    trace: the message of a failure, or the model's reply. *)
Definition upstream_text (W : World) (c : Call) : list string :=
  match c with
  | CallOpenAI apiKey r =>
      match chat_completions_create W apiKey r with
      | inl e => [message e]
      | inr (Some content) => [content]
      | inr None => []
      end
  | CallFetch url =>
      match fetch_json W url with
      | inl e => [message e]
      | inr _ => []
      end
  | CallVerifyIdToken _ | CallJSONParse _ | CallConsoleError _ _ => []
  end.

Definition upstream_texts (W : World) (cs : list Call) : list string :=
  flat_map (upstream_text W) cs.

(** The messages of the errors the language runtime throws in a handler:
    the [URIError] of [encodeURIComponent] and the two [TypeError]s of a
    body value that is not of the expected kind. *)
Definition runtime_texts : list string :=
  ["URI malformed"; "Cannot convert object to primitive value";
   "imageBase64.startsWith is not a function"].

(** Every text of an error body (status 400 or more) of the run [h] occurs
    in a fixed text, in the message of an error of the runtime or in a text
    an upstream supplied during the run. *)
Definition texts_accounted (W : World) (h : M unit) : Prop :=
  forall s v,
    400 <= statusCode (response h) ->
    In (SentJson v) (sent (response h)) ->
    contains_text s v = true ->
    exists t,
      (In t fixed_texts \/ In t runtime_texts \/
       In t (upstream_texts W (calls h))) /\
      occurs_in s t = true.

(** The world [W] with every principal replaced by its image under [f]. *)
Definition with_principal (f : DecodedIdToken -> DecodedIdToken) (W : World) : World :=
  mkWorld (JSON_parse W)
          (fun idToken =>
             match verifyIdToken W idToken with
             | inl e => inl e
             | inr p => inr (f p)
             end)
          (chat_completions_create W)
          (fetch_json W).

(** Two configurations with the same values set. *)
Definition same_presence (c1 c2 : FunctionsConfig) : Prop :=
  truthy (getOpenAIKey c1) = truthy (getOpenAIKey c2) /\
  truthy (getGoogleApiKey c1) = truthy (getGoogleApiKey c2) /\
  truthy (getGoogleCx c1) = truthy (getGoogleCx c2).

(** Upstream services whose answers do not depend on the key or on the
    address they are called with. *)
Definition secret_blind (W : World) : Prop :=
  (forall k1 k2 r, chat_completions_create W k1 r = chat_completions_create W k2 r) /\
  (forall u1 u2, fetch_json W u1 = fetch_json W u2).

(** ** Sample data for the examples *)

Definition sample_config : FunctionsConfig :=
  mkFunctionsConfig (Some (mkOpenAIConfig (Some "sk-cork-4711")))
                    (Some (mkGoogleConfig (Some "AIza-cork-0815") (Some "cx-cork"))).


(** A world whose identity service knows one token, and whose two
    upstream services give fixed answers. *)
Definition sample_world (reply : Error + option string) (found : Error + SearchData)
  : World :=
  mkWorld parse_json
          (fun idToken =>
             match idToken with
             | Some "token-of-alice" => inr (mkDecodedIdToken "alice")
             | _ => inl (mkError "Decoding Firebase ID token failed")
             end)
          (fun _ _ => reply)
          (fun _ => found).

Definition wine_json : string :=
  "{" ++ quoted "name" ++ ":" ++ quoted "Chateau X" ++ "," ++
  quoted "year" ++ ":2015}".

Definition wine_record : JSON :=
  JObj [("name", JStr "Chateau X"); ("year", JNum "2015")].

Definition prose_reply : string := "Here is the result: " ++ wine_json ++ " enjoy".

Definition one_image : SearchData :=
  mkSearchData (Some [mkSearchItem "https://img.example/chateau-x.jpg"]).

Definition happy_world : World := sample_world (inr (Some prose_reply)) (inr one_image).

Definition post_as_alice (b : Body) : Request :=
  mkRequest "POST" (Some "Bearer token-of-alice") b.

Definition label_body : Body := mkBody (Some (JStr "aGVsbG8=")) None None.
Definition search_body (t : option JSON) : Body :=
  mkBody None (Some (JStr "Chateau X")) t.
Definition no_body : Body := mkBody None None None.

(** A model provider that rejects every key and names it in the failure. *)
Definition key_echoing_world : World :=
  mkWorld parse_json
          (verifyIdToken happy_world)
          (fun apiKey _ => inl (mkError ("401 Incorrect API key provided: " ++ apiKey)))
          (fun _ => inr one_image).

Definition options_request : Request := mkRequest "OPTIONS" None no_body.

(** A reply whose braces do not delimit JSON, and one with a closing brace
    in the prose after the object. *)
Definition braces_reply : string := "The label shows {no vintage} at all".
Definition smiley_reply : string := wine_json ++ " cheers :-}".

(** The request reaches the image search at the address [url], and the
    search answers [found]: a POST that [verifyAuth] lets through, both
    search credentials set, a truthy query in the body, a search text and
    an address composed without a throw. *)
Definition search_replies (W : World) (config : FunctionsConfig) (req : Request)
  (url : string) (found : Error + SearchData) : Prop :=
  method req = "POST" /\
  (exists p, accepts W req p) /\
  exists k c q sq,
    getGoogleApiKey config = Some k /\ k <> "" /\
    getGoogleCx config = Some c /\ c <> "" /\
    query (body req) = Some q /\ ToBoolean q = true /\
    searchQuery q (type (body req)) = inr sq /\
    searchUrl k c sq = inr url /\
    fetch_json W url = found.

(** The address [searchWineImage] composes for a query and a type, or the
    error thrown on the way. *)
Definition composeUrl (k c : string) (q : JSON) (t : option JSON) : Error + string :=
  match searchQuery q t with
  | inr sq => searchUrl k c sq
  | inl error => inl error
  end.

(** The number of calls of a trace that go to a paid upstream API. *)
Definition upstream_count (cs : list Call) : nat :=
  List.length (filter is_upstream cs).

(** The [console.error] entries of a trace. *)
Definition is_log (c : Call) : bool :=
  match c with
  | CallConsoleError _ _ => true
  | _ => false
  end.

(** More sample data. *)
Definition get_request : Request :=
  mkRequest "GET" (Some "Bearer token-of-alice") label_body.

Definition search_only_config : FunctionsConfig :=
  mkFunctionsConfig None
                    (Some (mkGoogleConfig (Some "AIza-cork-0815") (Some "cx-cork"))).

Definition half_config : FunctionsConfig :=
  mkFunctionsConfig (Some (mkOpenAIConfig (Some "sk-cork-4711")))
                    (Some (mkGoogleConfig (Some "AIza-cork-0815") (Some ""))).

Definition other_config : FunctionsConfig :=
  mkFunctionsConfig (Some (mkOpenAIConfig (Some "sk-other-1")))
                    (Some (mkGoogleConfig (Some "AIza-other-2") (Some "cx-other"))).

Definition quota_error : Error := mkError "429 You exceeded your current quota".
Definition fetch_error : Error := mkError "fetch failed".

Definition failing_world : World := sample_world (inl quota_error) (inl fetch_error).

(** A reply that is one JSON string with braces inside. *)
Definition string_reply : string := quoted "see {b} there".

(** The address of the search for the sample query and a type of wine. *)
Definition sample_url (keyword : string) : string :=
  "https://www.googleapis.com/customsearch/v1?key=AIza-cork-0815&cx=cx-cork" ++
  "&q=Chateau%20X%20" ++ keyword ++ "%20bottle&searchType=image&num=1&imgType=photo".

(** A text that is one high surrogate without partner, U+D800. *)
Definition lone_surrogate : string :=
  String "237" (String "160" (String "128" "")).

(** An object that cannot be rendered as text. *)
Definition unprintable : JSON := JObj [("toString", JNum "1")].

(** * Properties *)

(** ** Strings and the brace pattern *)

Lemma append_assoc (a b c : string) : (a ++ b) ++ c = a ++ (b ++ c).
Proof.
  induction a as [|x a IH]; simpl; [reflexivity | now rewrite IH].
Qed.

Lemma append_nil_r (a : string) : a ++ "" = a.
Proof.
  induction a as [|x a IH]; simpl; [reflexivity | now rewrite IH].
Qed.

Lemma has_char_app (c : ascii) (a b : string) :
  has_char c (a ++ b) = has_char c a || has_char c b.
Proof.
  induction a as [|x a IH]; simpl; [reflexivity|].
  now rewrite IH, orb_assoc.
Qed.

(** A string either lacks [c] or splits at its first occurrence. *)
Lemma first_occurrence (c : ascii) (s : string) :
  has_char c s = false \/
  exists pre rest, s = pre ++ String c rest /\ has_char c pre = false.
Proof.
  induction s as [|x s IH]; simpl; [now left|].
  destruct (Ascii.eqb_spec x c) as [->|Hx].
  - right. exists "", s. split; reflexivity.
  - destruct IH as [IH|(pre & rest & -> & Hpre)].
    + left. exact IH.
    + right. exists (String x pre), rest. simpl.
      rewrite Hpre. apply Ascii.eqb_neq in Hx. rewrite Hx. split; reflexivity.
Qed.

(** A string either lacks [c] or splits at its last occurrence. *)
Lemma last_occurrence (c : ascii) (s : string) :
  has_char c s = false \/
  exists rest post, s = rest ++ String c post /\ has_char c post = false.
Proof.
  induction s as [|x s IH]; simpl; [now left|].
  destruct IH as [IH|(rest & post & -> & Hpost)].
  - destruct (Ascii.eqb_spec x c) as [->|Hx].
    + right. exists "", s. split; [reflexivity | exact IH].
    + left. exact IH.
  - right. exists (String x rest), post. split; [reflexivity | exact Hpost].
Qed.

Lemma star_then_close_none (s : string) :
  has_char "}" s = false -> star_then_close s = None.
Proof.
  induction s as [|x s IH]; simpl; [reflexivity|].
  intros H. apply orb_false_iff in H as [Hx Hs].
  now rewrite (IH Hs), Hx.
Qed.

(** The greedy star stops at the last closing brace. *)
Lemma star_then_close_last (mid post : string) :
  has_char "}" post = false ->
  star_then_close (mid ++ String "}" post) = Some (mid ++ "}").
Proof.
  intros Hpost. induction mid as [|x mid IH]; simpl.
  - now rewrite (star_then_close_none _ Hpost).
  - now rewrite IH.
Qed.

Lemma star_then_close_some (s m : string) :
  star_then_close s = Some m ->
  exists mid post, s = mid ++ String "}" post /\ m = mid ++ "}" /\
                   has_char "}" post = false.
Proof.
  revert m. induction s as [|x s IH]; simpl; intros m H; [discriminate|].
  destruct (star_then_close s) as [m'|] eqn:E.
  - injection H as <-. destruct (IH m' eq_refl) as (mid & post & -> & -> & Hp).
    exists (String x mid), post. repeat split; assumption.
  - destruct (Ascii.eqb_spec x "}") as [->|Hx]; [|discriminate].
    injection H as <-. exists "", s. repeat split.
    clear IH. induction s as [|y s IHs]; simpl in *; [reflexivity|].
    destruct (star_then_close s); [discriminate|].
    destruct (Ascii.eqb y "}"); [discriminate|]. now apply IHs.
Qed.

(** The search skips a prefix without opening brace. *)
Lemma regex_match_skip (pre s : string) :
  has_char "{" pre = false -> regex_match (pre ++ s) = regex_match s.
Proof.
  induction pre as [|x pre IH]; simpl; intros H; [reflexivity|].
  apply orb_false_iff in H as [Hx Hpre].
  rewrite Hx. exact (IH Hpre).
Qed.

(** The match runs from the first opening brace to the last closing brace. *)
Lemma regex_match_first_last (pre mid post : string) :
  has_char "{" pre = false -> has_char "}" post = false ->
  regex_match (pre ++ String "{" (mid ++ String "}" post))
  = Some (String "{" (mid ++ "}")).
Proof.
  intros Hpre Hpost. rewrite (regex_match_skip _ _ Hpre).
  destruct mid; simpl; now rewrite ?star_then_close_last, ?star_then_close_none.
Qed.

Lemma has_char_none_regex (s : string) :
  has_char "}" s = false -> regex_match s = None.
Proof.
  induction s as [|x s IH]; simpl; intros H; [reflexivity|].
  apply orb_false_iff in H as [_ Hs].
  rewrite (star_then_close_none _ Hs), (IH Hs).
  now destruct (Ascii.eqb x "{").
Qed.

(** An opening brace followed later by a closing brace gives a first
    opening brace and a last closing brace after it. *)
Lemma first_open_last_close (a b c : string) :
  exists pre mid post,
    a ++ String "{" (b ++ String "}" c) = pre ++ String "{" (mid ++ String "}" post) /\
    has_char "{" pre = false /\ has_char "}" post = false.
Proof.
  assert (Hopen : exists pre x, a ++ String "{" (b ++ String "}" c)
                                = pre ++ String "{" (x ++ b ++ String "}" c) /\
                                has_char "{" pre = false).
  { destruct (first_occurrence "{" a) as [Ha|(pre & rest & -> & Hpre)].
    - exists a, "". split; [reflexivity | exact Ha].
    - exists pre, (rest ++ "{"). split; [|exact Hpre].
      rewrite !append_assoc. simpl. now rewrite ?append_assoc. }
  destruct Hopen as (pre & x & -> & Hpre).
  destruct (last_occurrence "}" c) as [Hc|(rest & post & -> & Hpost)].
  - exists pre, (x ++ b), c. rewrite ?append_assoc. repeat split; assumption.
  - exists pre, (x ++ b ++ String "}" rest), post.
    rewrite ?append_assoc. simpl. rewrite ?append_assoc. repeat split; assumption.
Qed.

(** A match is a substring from the first opening to the last closing
    brace. *)
Lemma regex_match_some (s m : string) :
  regex_match s = Some m ->
  exists pre mid post,
    s = pre ++ String "{" (mid ++ String "}" post) /\
    m = String "{" (mid ++ "}") /\
    has_char "{" pre = false /\ has_char "}" post = false.
Proof.
  induction s as [|x s IH]; simpl; intros H; [discriminate|].
  destruct (Ascii.eqb_spec x "{") as [->|Hx].
  - destruct (star_then_close s) as [m'|] eqn:E; simpl in H.
    + injection H as <-.
      destruct (star_then_close_some _ _ E) as (mid & post & -> & -> & Hp).
      exists "", mid, post. repeat split; assumption.
    + destruct (IH H) as (pre & mid & post & Hs & _).
      destruct (first_occurrence "}" s) as [Hn|(p & r & Hs' & _)].
      * rewrite (has_char_none_regex _ Hn) in H. discriminate.
      * subst s. rewrite Hs' in E.
        destruct (last_occurrence "}" r) as [Hr|(r1 & r2 & -> & Hr2)].
        -- rewrite (star_then_close_last _ _ Hr) in E. discriminate.
        -- replace (p ++ String "}" (r1 ++ String "}" r2))
             with ((p ++ String "}" r1) ++ String "}" r2) in E
             by (rewrite append_assoc; reflexivity).
           rewrite (star_then_close_last _ _ Hr2) in E. discriminate.
  - destruct (IH H) as (pre & mid & post & -> & -> & Hpre & Hpost).
    exists (String x pre), mid, post. simpl.
    apply Ascii.eqb_neq in Hx. rewrite Hx, Hpre. repeat split. exact Hpost.
Qed.

(** No match: no opening brace is followed by a closing brace. *)
Lemma regex_match_none (s : string) :
  regex_match s = None ->
  forall a b c, s <> a ++ String "{" (b ++ String "}" c).
Proof.
  intros H a b c ->.
  destruct (first_open_last_close a b c) as (pre & mid & post & E & Hpre & Hpost).
  rewrite E, (regex_match_first_last _ _ _ Hpre Hpost) in H. discriminate.
Qed.

(** ** Running the handlers *)

Lemma startsWith_nonempty (s p : string) :
  p <> "" -> startsWith s p = true -> truthy (Some s) = true.
Proof.
  unfold startsWith. destruct s; [|reflexivity].
  destruct p; [congruence | discriminate].
Qed.

Lemma truthy_present (v : option string) : truthy v = true <-> present v.
Proof.
  unfold present. split.
  - destruct v as [[|c s]|]; try discriminate. intros _. now exists c, s.
  - intros (c & s & ->). reflexivity.
Qed.


(** What the three getters find is what the configuration holds. *)
Lemma getOpenAIKey_set (config : FunctionsConfig) :
  present (getOpenAIKey config) <-> openai_key_set config.
Proof.
  unfold getOpenAIKey, openai_key_set. destruct (openai config) as [section|].
  - split.
    + intros H. now exists section.
    + intros (x & Hx & H). now injection Hx as <-.
  - split.
    + intros (a & b & H). discriminate H.
    + intros (x & Hx & _). discriminate Hx.
Qed.

Lemma getGoogle_set (config : FunctionsConfig) :
  present (getGoogleApiKey config) /\ present (getGoogleCx config)
  <-> search_credentials_set config.
Proof.
  unfold getGoogleApiKey, getGoogleCx, search_credentials_set.
  destruct (google config) as [section|].
  - split.
    + intros H. now exists section.
    + intros (x & Hx & H). now injection Hx as <-.
  - split.
    + intros [(a & b & H) _]. discriminate H.
    + intros (x & Hx & _). discriminate Hx.
Qed.

Section VerifyAuth.

Variable W : World.
Variable req : Request.
Variable st : St.

(** Without a bearer header nothing is asked of the identity service. *)
Lemma verifyAuth_no_token :
  authorization req = None \/
  (exists h, authorization req = Some h /\ startsWith h "Bearer " = false) ->
  verifyAuth W req st =
  (None, mkSt (mkRes 401 (headers (res st))
                 (sent (res st) ++
                  [SentJson (JObj [("error", JStr "Unauthorized - No token provided")])]))
              (trace st)).
Proof.
  unfold verifyAuth. intros [->|(h & -> & Hh)]; [reflexivity|].
  rewrite Hh, orb_true_r. reflexivity.
Qed.

Lemma verifyAuth_rejected (h : string) (e : Error) :
  authorization req = Some h -> startsWith h "Bearer " = true ->
  verifyIdToken W (idToken_of h) = inl e ->
  verifyAuth W req st =
  (None, mkSt (mkRes 401 (headers (res st))
                 (sent (res st) ++
                  [SentJson (JObj [("error", JStr "Unauthorized - Invalid token")])]))
              ((trace st ++ [CallVerifyIdToken (idToken_of h)]) ++
               [CallConsoleError "Auth error:" e])).
Proof.
  unfold verifyAuth, idToken_of. intros -> Hh Hv.
  rewrite Hh, (startsWith_nonempty h "Bearer ") by (assumption || discriminate).
  unfold await_verifyIdToken, bind, record, ret. cbv beta iota zeta.
  rewrite Hv. reflexivity.
Qed.

Lemma verifyAuth_accepted (p : DecodedIdToken) :
  accepts W req p ->
  exists h, authorization req = Some h /\
  verifyAuth W req st =
  (Some p, mkSt (res st) (trace st ++ [CallVerifyIdToken (idToken_of h)])).
Proof.
  intros (h & Ha & Hh & Hv). exists h. split; [exact Ha|].
  unfold verifyAuth, idToken_of in *. rewrite Ha, Hh.
  rewrite (startsWith_nonempty h "Bearer ") by (assumption || discriminate).
  unfold await_verifyIdToken, bind, record, ret. cbv beta iota zeta.
  rewrite Hv. reflexivity.
Qed.

End VerifyAuth.

Lemma bind_apply {A B} (m : M A) (k : A -> M B) (st : St) :
  bind m k st = k (fst (m st)) (snd (m st)).
Proof. unfold bind. now destruct (m st). Qed.

Lemma cors_fresh :
  cors (mkSt fresh_res []) = (tt, mkSt (mkRes 200 cors_headers []) []).
Proof. reflexivity. Qed.

Lemma method_post (req : Request) :
  method req = "POST" ->
  (method req =? "OPTIONS")%string = false /\
  negb (method req =? "POST")%string = false.
Proof. intros ->. split; reflexivity. Qed.

(** Enter a protected function: run [cors] on the fresh response. *)
Ltac enter :=
  unfold response, calls, run, handler, analyzeWineLabel, searchWineImage;
  rewrite ?bind_apply, ?cors_fresh; cbn [fst snd].

(** Enter a protected function with a POST, up to the call of
    [verifyAuth]. *)
Ltac enter_post Hm :=
  let H1 := fresh in let H2 := fresh in
  destruct (method_post _ Hm) as [H1 H2];
  enter; rewrite H1, H2, ?bind_apply; clear H1 H2.

(** ** The preflight *)

(** C1, as the code has it: on a request with method OPTIONS the two
    protected functions answer 204 with an empty body and the three CORS
    headers, whatever the Authorization header, and call nothing; [health]
    has no preflight branch and answers OPTIONS like every other method,
    with 200, the health report and the allow-origin header. *)
Theorem options_preflight (W : World) (config : FunctionsConfig)
  (ep : Endpoint) (req : Request) :
  method req = "OPTIONS" ->
  response (handler W config ep req) =
    (if protected ep
     then mkRes 204 cors_headers [SentText ""]
     else mkRes 200 [("Access-Control-Allow-Origin", "*")]
            [SentJson (health_body (truthy (getOpenAIKey config))
                         (truthy (js_and (getGoogleApiKey config)
                                         (getGoogleCx config))))]) /\
  calls (handler W config ep req) = [].
Proof.
  intros Hm. destruct ep; simpl protected; cbv iota.
  - enter. rewrite Hm. split; reflexivity.
  - enter. rewrite Hm. split; reflexivity.
  - split; reflexivity.
Qed.

Lemma options_preflight_witness :
  response (handler happy_world sample_config SearchWineImage options_request)
  = mkRes 204 cors_headers [SentText ""] /\
  calls (handler happy_world sample_config SearchWineImage options_request) = [].
Proof.
  apply (options_preflight happy_world sample_config SearchWineImage options_request).
  reflexivity.
Defined.

(** C1 as stated fails on [health]: its answer to OPTIONS has status 200
    and a JSON body. *)
Lemma options_health_counterexample :
  method options_request = "OPTIONS" /\
  response (handler happy_world sample_config Health options_request)
  = mkRes 200 [("Access-Control-Allow-Origin", "*")]
      [SentJson (health_body true true)] /\
  ~ (forall W config ep req,
        method req = "OPTIONS" ->
        statusCode (response (handler W config ep req)) = 204 /\
        sent (response (handler W config ep req)) = [SentText ""]).
Proof.
  split; [reflexivity|]. split; [reflexivity|].
  intros H.
  destruct (H happy_world sample_config Health options_request eq_refl) as [H204 _].
  discriminate H204.
Qed.

(** ** Authentication *)

(** C2: a POST to a protected function whose Authorization header is
    absent or does not start with [Bearer ] is answered 401
    [Unauthorized - No token provided] and makes no call at all; one whose
    extracted token the identity service rejects is answered 401
    [Unauthorized - Invalid token], and its only calls are the verification
    and the log of its failure: no upstream API is invoked in either case. *)
Theorem unauthorized_without_upstream (W : World) (config : FunctionsConfig)
  (ep : Endpoint) (req : Request) :
  protected ep = true ->
  method req = "POST" ->
  (authorization req = None \/
   (exists h, authorization req = Some h /\ startsWith h "Bearer " = false) ->
   response (handler W config ep req)
   = mkRes 401 cors_headers
       [SentJson (JObj [("error", JStr "Unauthorized - No token provided")])] /\
   calls (handler W config ep req) = []) /\
  (forall h e,
     authorization req = Some h -> startsWith h "Bearer " = true ->
     verifyIdToken W (idToken_of h) = inl e ->
     response (handler W config ep req)
     = mkRes 401 cors_headers
         [SentJson (JObj [("error", JStr "Unauthorized - Invalid token")])] /\
     calls (handler W config ep req)
     = [CallVerifyIdToken (idToken_of h); CallConsoleError "Auth error:" e] /\
     no_upstream (calls (handler W config ep req))).
Proof.
  intros Hp Hm. split.
  - intros Ha. destruct ep; [| |discriminate Hp]; enter_post Hm;
      rewrite (verifyAuth_no_token _ _ _ Ha); split; reflexivity.
  - intros h e Ha Hh Hv. unfold no_upstream.
    destruct ep; [| |discriminate Hp]; enter_post Hm;
      rewrite (verifyAuth_rejected _ _ _ h e Ha Hh Hv); repeat split.
Qed.

Lemma unauthorized_without_upstream_witness :
  (response (handler happy_world sample_config AnalyzeWineLabel
               (mkRequest "POST" (Some "Basic dXNlcjpwdw==") label_body))
   = mkRes 401 cors_headers
       [SentJson (JObj [("error", JStr "Unauthorized - No token provided")])] /\
   calls (handler happy_world sample_config AnalyzeWineLabel
            (mkRequest "POST" (Some "Basic dXNlcjpwdw==") label_body)) = []) /\
  (response (handler happy_world sample_config SearchWineImage
               (mkRequest "POST" (Some "Bearer token-of-mallory") (search_body None)))
   = mkRes 401 cors_headers [SentJson (JObj [("error", JStr "Unauthorized - Invalid token")])] /\
   calls (handler happy_world sample_config SearchWineImage
            (mkRequest "POST" (Some "Bearer token-of-mallory") (search_body None)))
   = [CallVerifyIdToken (Some "token-of-mallory");
      CallConsoleError "Auth error:" (mkError "Decoding Firebase ID token failed")] /\
   no_upstream (calls (handler happy_world sample_config SearchWineImage
            (mkRequest "POST" (Some "Bearer token-of-mallory") (search_body None))))).
Proof.
  split.
  - apply (proj1 (unauthorized_without_upstream happy_world sample_config
                    AnalyzeWineLabel
                    (mkRequest "POST" (Some "Basic dXNlcjpwdw==") label_body)
                    eq_refl eq_refl)).
    right. exists "Basic dXNlcjpwdw==". split; reflexivity.
  - apply (proj2 (unauthorized_without_upstream happy_world sample_config
                    SearchWineImage
                    (mkRequest "POST" (Some "Bearer token-of-mallory") (search_body None))
                    eq_refl eq_refl)
                 "Bearer token-of-mallory"
                 (mkError "Decoding Firebase ID token failed"));
      reflexivity.
Defined.

(** C10: the header [Bearer ] with nothing after it passes the prefix
    check; the token extracted from it is the empty string, which
    [verifyAuth] submits to the identity service; when the service rejects
    it the answer is 401 [Unauthorized - Invalid token], not
    [Unauthorized - No token provided].  This holds of [verifyAuth] on
    every request and response state, and so of every POST to a protected
    function. *)
Theorem empty_bearer_token (W : World) (config : FunctionsConfig) (req : Request) :
  authorization req = Some "Bearer " ->
  startsWith "Bearer " "Bearer " = true /\
  idToken_of "Bearer " = Some "" /\
  (forall st,
     hd_error (skipn (List.length (trace st)) (trace (snd (verifyAuth W req st))))
     = Some (CallVerifyIdToken (Some ""))) /\
  (forall e,
     verifyIdToken W (Some "") = inl e ->
     (forall st,
        verifyAuth W req st =
        (None, mkSt (mkRes 401 (headers (res st))
                       (sent (res st) ++
                        [SentJson (JObj [("error", JStr "Unauthorized - Invalid token")])]))
                    ((trace st ++ [CallVerifyIdToken (Some "")]) ++
                     [CallConsoleError "Auth error:" e]))) /\
     (forall ep,
        protected ep = true -> method req = "POST" ->
        response (handler W config ep req)
        = mkRes 401 cors_headers
            [SentJson (JObj [("error", JStr "Unauthorized - Invalid token")])] /\
        calls (handler W config ep req)
        = [CallVerifyIdToken (Some ""); CallConsoleError "Auth error:" e])).
Proof.
  intros Ha. split; [reflexivity|]. split; [reflexivity|]. split.
  - intros st. unfold verifyAuth. rewrite Ha.
    change (negb (truthy (Some "Bearer ")) || negb (startsWith "Bearer " "Bearer "))
      with false.
    change (nth_error (split "Bearer " "Bearer ") 1) with (Some "").
    cbv iota zeta. unfold await_verifyIdToken. rewrite !bind_apply.
    destruct (verifyIdToken W (Some "")) as [e|p];
      unfold console_error, record, ret, res_status, res_json, modify_res, bind;
      cbn [fst snd trace res];
      rewrite <- ?app_assoc, skipn_app, skipn_all, Nat.sub_diag; reflexivity.
  - intros e Hv. split.
    + intros st. apply (verifyAuth_rejected W req st "Bearer " e Ha eq_refl Hv).
    + intros ep Hp Hm.
      destruct ep; [| |discriminate Hp]; enter_post Hm;
        rewrite (verifyAuth_rejected W req _ "Bearer " e Ha eq_refl Hv);
        split; reflexivity.
Qed.

Lemma empty_bearer_token_witness :
  response (handler happy_world sample_config AnalyzeWineLabel
              (mkRequest "POST" (Some "Bearer ") label_body))
  = mkRes 401 cors_headers [SentJson (JObj [("error", JStr "Unauthorized - Invalid token")])] /\
  calls (handler happy_world sample_config AnalyzeWineLabel
           (mkRequest "POST" (Some "Bearer ") label_body))
  = [CallVerifyIdToken (Some "");
     CallConsoleError "Auth error:" (mkError "Decoding Firebase ID token failed")].
Proof.
  apply (proj2 (proj2 (proj2 (proj2
           (empty_bearer_token happy_world sample_config
              (mkRequest "POST" (Some "Bearer ") label_body) eq_refl)))
           (mkError "Decoding Firebase ID token failed") eq_refl));
    reflexivity.
Defined.

(** ** The health report *)

(** C7: [health] answers every request, whatever its method and
    Authorization header, with 200 and the report
    [{status: "ok", openaiConfigured, googleConfigured}], and makes no call:
    neither to the identity service nor to an upstream.  [openaiConfigured]
    is true exactly when the configuration has a non-empty model key,
    [googleConfigured] exactly when it has a non-empty search key and a
    non-empty search-engine identifier. *)
Theorem health_report (W : World) (config : FunctionsConfig) (req : Request) :
  exists openaiConfigured googleConfigured : bool,
    response (handler W config Health req)
    = mkRes 200 [("Access-Control-Allow-Origin", "*")]
        [SentJson (JObj [("status", JStr "ok");
                         ("openaiConfigured", JBool openaiConfigured);
                         ("googleConfigured", JBool googleConfigured)])] /\
    calls (handler W config Health req) = [] /\
    (openaiConfigured = true <-> openai_key_set config) /\
    (googleConfigured = true <-> search_credentials_set config).
Proof.
  exists (truthy (getOpenAIKey config)),
         (truthy (js_and (getGoogleApiKey config) (getGoogleCx config))).
  split; [reflexivity|]. split; [reflexivity|]. split.
  - rewrite truthy_present. apply getOpenAIKey_set.
  - rewrite <- getGoogle_set, <- !truthy_present. unfold js_and.
    destruct (truthy (getGoogleApiKey config)) eqn:E.
    + tauto.
    + rewrite E. split; [discriminate | intros [H _]; exact H].
Qed.

Lemma health_report_witness :
  response (handler happy_world sample_config Health options_request)
  = mkRes 200 [("Access-Control-Allow-Origin", "*")]
      [SentJson (JObj [("status", JStr "ok"); ("openaiConfigured", JBool true);
                       ("googleConfigured", JBool true)])] /\
  response (handler happy_world search_only_config Health get_request)
  = mkRes 200 [("Access-Control-Allow-Origin", "*")]
      [SentJson (JObj [("status", JStr "ok"); ("openaiConfigured", JBool false);
                       ("googleConfigured", JBool true)])] /\
  response (handler happy_world half_config Health get_request)
  = mkRes 200 [("Access-Control-Allow-Origin", "*")]
      [SentJson (JObj [("status", JStr "ok"); ("openaiConfigured", JBool true);
                       ("googleConfigured", JBool false)])].
Proof.
  assert (Hopenai : openai_key_set sample_config /\ openai_key_set half_config /\
                    ~ openai_key_set search_only_config).
  { repeat split.
    - eexists; split; [reflexivity|]. now exists "s"%char, "k-cork-4711".
    - eexists; split; [reflexivity|]. now exists "s"%char, "k-cork-4711".
    - intros (x & Hx & _). discriminate Hx. }
  assert (Hgoogle : search_credentials_set sample_config /\
                    search_credentials_set search_only_config /\
                    ~ search_credentials_set half_config).
  { repeat split.
    - eexists; split; [reflexivity|].
      split; [now exists "A"%char, "Iza-cork-0815" | now exists "c"%char, "x-cork"].
    - eexists; split; [reflexivity|].
      split; [now exists "A"%char, "Iza-cork-0815" | now exists "c"%char, "x-cork"].
    - intros (x & Hx & _ & (a & b & Hcx)). injection Hx as <-. discriminate Hcx. }
  destruct Hopenai as (Ho1 & Ho2 & Ho3). destruct Hgoogle as (Hg1 & Hg2 & Hg3).
  split; [|split].
  - destruct (health_report happy_world sample_config options_request)
      as (o & g & Hr & _ & Ho & Hg).
    rewrite Hr. apply Ho in Ho1. apply Hg in Hg1. now subst.
  - destruct (health_report happy_world search_only_config get_request)
      as (o & g & Hr & _ & Ho & Hg).
    rewrite Hr. apply Hg in Hg2. subst g.
    destruct o; [exfalso; apply Ho3; now apply Ho | reflexivity].
  - destruct (health_report happy_world half_config get_request)
      as (o & g & Hr & _ & Ho & Hg).
    rewrite Hr. apply Ho in Ho2. subst o.
    destruct g; [exfalso; apply Hg3; now apply Hg | reflexivity].
Defined.

(** ** The parse of the model's reply *)

(** Unfold the awaited calls and the response operations, and run them. *)
Ltac step :=
  unfold await_create, await_fetch_json, call_JSON_parse, parseWineData,
    console_error, record, ret, res_status, res_json, res_send, modify_res;
  rewrite ?bind_apply; cbn [fst snd res trace statusCode headers sent app].

(** Once the model has replied with a text, the answer is decided by
    [JSON.parse] on [parse_target]. *)
Lemma analyze_reply (W : World) (config : FunctionsConfig) (req : Request)
  (k img content : string) :
  model_replies W config req k img (inr (Some content)) ->
  exists h, authorization req = Some h /\
  let before := [CallVerifyIdToken (idToken_of h); CallOpenAI k (chatRequest img)] in
  match JSON_parse W (parse_target content) with
  | inr v =>
      response (analyzeWineLabel W config req) = analysis_ok v /\
      calls (analyzeWineLabel W config req)
      = (before ++ [CallJSONParse (parse_target content)])%list
  | inl e =>
      response (analyzeWineLabel W config req) = parse_failure content /\
      calls (analyzeWineLabel W config req)
      = (before ++ [CallJSONParse (parse_target content);
                    CallConsoleError "JSON parse error:" e])%list
  end.
Proof.
  intros (Hm & (p & Hp) & Hk & Hk' & Hi & Hi' & Hc).
  destruct (verifyAuth_accepted W req (mkSt (mkRes 200 cors_headers []) []) p Hp)
    as (h & Ha & Hv).
  exists h. split; [exact Ha|].
  enter_post Hm. rewrite Hv. cbn [fst snd]. rewrite Hk.
  destruct k as [|kc k]; [congruence|]. rewrite Hi.
  destruct img as [|ic img]; [congruence|].
  cbv zeta. cbn [ToBoolean startsWith_receiver].
  step. rewrite Hc. unfold parse_target.
  destruct (regex_match content) as [m|]; step.
  - destruct (JSON_parse W m); split; reflexivity.
  - destruct (JSON_parse W content); split; reflexivity.
Qed.

Lemma analyze_parses_target (W : World) (config : FunctionsConfig) (req : Request)
  (k img content : string) :
  model_replies W config req k img (inr (Some content)) ->
  In (CallJSONParse (parse_target content)) (calls (analyzeWineLabel W config req)) /\
  (forall t, In (CallJSONParse t) (calls (analyzeWineLabel W config req)) ->
             t = parse_target content) /\
  (forall v, JSON_parse W (parse_target content) = inr v ->
             response (analyzeWineLabel W config req) = analysis_ok v) /\
  (forall e, JSON_parse W (parse_target content) = inl e ->
             response (analyzeWineLabel W config req) = parse_failure content).
Proof.
  intros H. destruct (analyze_reply _ _ _ _ _ _ H) as (h & _ & Hrun).
  cbv zeta in Hrun.
  destruct (JSON_parse W (parse_target content)) as [e|v];
    destruct Hrun as [Hr Hc]; rewrite Hr, Hc; repeat split;
    try (simpl; tauto); try congruence.
  - intros t [Ht|[Ht|[Ht|[Ht|[]]]]]; congruence.
  - intros t [Ht|[Ht|[Ht|[]]]]; congruence.
Qed.

(** Brace-free prose around one brace-delimited object: the match is the
    object. *)
Lemma parse_target_embedded (pre mid post : string) :
  brace_free pre = true -> brace_free post = true ->
  parse_target (pre ++ String "{" (mid ++ "}") ++ post) = String "{" (mid ++ "}").
Proof.
  unfold brace_free, parse_target. intros Hpre Hpost.
  apply andb_true_iff in Hpre as [Hpre _], Hpost as [_ Hpost].
  apply negb_true_iff in Hpre, Hpost.
  replace (pre ++ String "{" (mid ++ "}") ++ post)
    with (pre ++ String "{" (mid ++ String "}" post))
    by (simpl; now rewrite append_assoc).
  now rewrite (regex_match_first_last _ _ _ Hpre Hpost).
Qed.

(** C3: when the model replies with a text, [analyzeWineLabel] hands to
    [JSON.parse] the match of the brace pattern, a substring of the reply
    from an opening to a closing brace, and answers 200
    [{success: true, data}] with the value parsed from it; when the pattern
    has no match it does the same with the entire reply.  In particular,
    for a reply made of one brace-delimited object between brace-free
    prose, the data returned is the value of exactly that object. *)
Theorem label_reply_extraction (W : World) (config : FunctionsConfig)
  (req : Request) (k img content : string) :
  model_replies W config req k img (inr (Some content)) ->
  (forall m, regex_match content = Some m ->
     (exists pre mid post,
        content = pre ++ m ++ post /\ m = String "{" (mid ++ "}")) /\
     In (CallJSONParse m) (calls (analyzeWineLabel W config req)) /\
     forall v, JSON_parse W m = inr v ->
               response (analyzeWineLabel W config req) = analysis_ok v) /\
  (regex_match content = None ->
     In (CallJSONParse content) (calls (analyzeWineLabel W config req)) /\
     forall v, JSON_parse W content = inr v ->
               response (analyzeWineLabel W config req) = analysis_ok v) /\
  (forall pre mid post v,
     content = pre ++ String "{" (mid ++ "}") ++ post ->
     brace_free pre = true -> brace_free post = true ->
     JSON_parse W (String "{" (mid ++ "}")) = inr v ->
     response (analyzeWineLabel W config req) = analysis_ok v).
Proof.
  intros H. destruct (analyze_parses_target _ _ _ _ _ _ H) as (Hin & _ & Hok & _).
  split; [|split].
  - intros m Hm. unfold parse_target in Hin, Hok. rewrite Hm in Hin, Hok.
    split; [|split; assumption].
    destruct (regex_match_some _ _ Hm) as (pre & mid & post & -> & -> & _).
    exists pre, mid, post. split; [|reflexivity].
    simpl. now rewrite append_assoc.
  - intros Hm. unfold parse_target in Hin, Hok. rewrite Hm in Hin, Hok.
    split; assumption.
  - intros pre mid post v -> Hpre Hpost Hv. apply Hok.
    now rewrite (parse_target_embedded _ _ _ Hpre Hpost).
Qed.

Lemma sample_model_replies (reply : Error + option string) (found : Error + SearchData) :
  model_replies (sample_world reply found) sample_config (post_as_alice label_body)
    "sk-cork-4711" "aGVsbG8=" reply.
Proof.
  repeat split; try discriminate.
  exists (mkDecodedIdToken "alice"), "Bearer token-of-alice".
  repeat split.
Defined.

Lemma label_reply_extraction_witness :
  response (analyzeWineLabel happy_world sample_config (post_as_alice label_body))
  = analysis_ok wine_record /\
  (In (CallJSONParse wine_json)
      (calls (analyzeWineLabel happy_world sample_config (post_as_alice label_body))) /\
   forall v, JSON_parse happy_world wine_json = inr v ->
             response (analyzeWineLabel happy_world sample_config
                         (post_as_alice label_body)) = analysis_ok v) /\
  response (analyzeWineLabel (sample_world (inr (Some "[1, 2]")) (inr one_image))
              sample_config (post_as_alice label_body))
  = analysis_ok (JArr [JNum "1"; JNum "2"]).
Proof.
  split; [|split].
  - apply (proj2 (proj2 (label_reply_extraction happy_world sample_config
                           (post_as_alice label_body) "sk-cork-4711" "aGVsbG8="
                           prose_reply (sample_model_replies _ _)))
                 "Here is the result: "
                 (quoted "name" ++ ":" ++ quoted "Chateau X" ++ "," ++
                  quoted "year" ++ ":2015")
                 " enjoy" wine_record);
      reflexivity.
  - apply (proj1 (label_reply_extraction happy_world sample_config
                    (post_as_alice label_body) "sk-cork-4711" "aGVsbG8="
                    prose_reply (sample_model_replies _ _))
                 wine_json eq_refl).
  - apply (proj1 (proj2 (label_reply_extraction
                           (sample_world (inr (Some "[1, 2]")) (inr one_image))
                           sample_config (post_as_alice label_body)
                           "sk-cork-4711" "aGVsbG8=" "[1, 2]"
                           (sample_model_replies _ _)))
                 eq_refl).
    reflexivity.
Defined.

(** C8: when the model's reply is a text on which [JSON.parse] fails both
    for the brace match and for the whole reply, the answer is 500
    [{error: "Failed to parse wine data", raw}] with the reply under
    [raw]. *)
Theorem unparseable_reply (W : World) (config : FunctionsConfig)
  (req : Request) (k img content : string) :
  model_replies W config req k img (inr (Some content)) ->
  (forall m, regex_match content = Some m -> exists e, JSON_parse W m = inl e) ->
  (exists e, JSON_parse W content = inl e) ->
  response (analyzeWineLabel W config req) = parse_failure content.
Proof.
  intros H Hmatch [e He].
  destruct (analyze_parses_target _ _ _ _ _ _ H) as (_ & _ & _ & Hfail).
  unfold parse_target in Hfail.
  destruct (regex_match content) as [m|].
  - destruct (Hmatch m eq_refl) as [e' He']. exact (Hfail e' He').
  - exact (Hfail e He).
Qed.

Lemma unparseable_reply_witness :
  response (analyzeWineLabel (sample_world (inr (Some braces_reply)) (inr one_image))
              sample_config (post_as_alice label_body))
  = parse_failure braces_reply.
Proof.
  apply (unparseable_reply (sample_world (inr (Some braces_reply)) (inr one_image))
           sample_config (post_as_alice label_body) "sk-cork-4711" "aGVsbG8="
           braces_reply (sample_model_replies _ _)).
  - intros m Hm. vm_compute in Hm. injection Hm as <-.
    exists (mkError "Unexpected token in JSON"). reflexivity.
  - exists (mkError "Unexpected token in JSON"). reflexivity.
Defined.

(** C9: when the reply has an opening brace followed somewhere by a
    closing brace, the text handed to [JSON.parse] runs from the first
    opening brace of the reply to its last closing brace.  So when prose
    after an embedded object contains a closing brace, that prose, up to
    its last closing brace, is part of the parsed text. *)
Theorem match_spans_first_to_last (W : World) (config : FunctionsConfig)
  (req : Request) (k img content : string) :
  model_replies W config req k img (inr (Some content)) ->
  (forall a b c,
     content = a ++ String "{" (b ++ String "}" c) ->
     exists pre mid post,
       content = pre ++ String "{" (mid ++ String "}" post) /\
       has_char "{" pre = false /\ has_char "}" post = false /\
       regex_match content = Some (String "{" (mid ++ "}")) /\
       In (CallJSONParse (String "{" (mid ++ "}")))
          (calls (analyzeWineLabel W config req))) /\
  (forall pre object prose tail,
     content = pre ++ String "{" (object ++ "}") ++ prose ++ String "}" tail ->
     has_char "{" pre = false -> has_char "}" tail = false ->
     In (CallJSONParse (String "{" (object ++ "}") ++ prose ++ "}"))
        (calls (analyzeWineLabel W config req))).
Proof.
  intros H. destruct (analyze_parses_target _ _ _ _ _ _ H) as (Hin & _).
  unfold parse_target in Hin. split.
  - intros a b c E.
    destruct (first_open_last_close a b c) as (pre & mid & post & E' & Hpre & Hpost).
    exists pre, mid, post. rewrite <- E in E'.
    pose proof (regex_match_first_last pre mid post Hpre Hpost) as Hm.
    rewrite <- E' in Hm. rewrite Hm in Hin. repeat split; assumption.
  - intros pre object prose tail E Hpre Htail.
    assert (Hm : regex_match content
                 = Some (String "{" ((object ++ "}" ++ prose) ++ "}"))).
    { rewrite E.
      rewrite <- (regex_match_first_last pre (object ++ "}" ++ prose) tail Hpre Htail).
      f_equal. f_equal. simpl. rewrite !append_assoc. reflexivity. }
    rewrite Hm in Hin.
    replace (String "{" (object ++ "}") ++ prose ++ "}")
      with (String "{" ((object ++ "}" ++ prose) ++ "}")); [exact Hin|].
    simpl. rewrite !append_assoc. reflexivity.
Qed.

Lemma match_spans_first_to_last_witness :
  In (CallJSONParse smiley_reply)
     (calls (analyzeWineLabel (sample_world (inr (Some smiley_reply)) (inr one_image))
               sample_config (post_as_alice label_body))) /\
  exists pre mid post,
    "a {b} c {d} e" = pre ++ String "{" (mid ++ String "}" post) /\
    has_char "{" pre = false /\ has_char "}" post = false /\
    regex_match "a {b} c {d} e" = Some (String "{" (mid ++ "}")) /\
    In (CallJSONParse (String "{" (mid ++ "}")))
       (calls (analyzeWineLabel (sample_world (inr (Some "a {b} c {d} e")) (inr one_image))
                 sample_config (post_as_alice label_body))).
Proof.
  split.
  - apply (proj2 (match_spans_first_to_last
                    (sample_world (inr (Some smiley_reply)) (inr one_image))
                    sample_config (post_as_alice label_body) "sk-cork-4711" "aGVsbG8="
                    smiley_reply (sample_model_replies _ _))
                 ""
                 (quoted "name" ++ ":" ++ quoted "Chateau X" ++ "," ++
                  quoted "year" ++ ":2015")
                 " cheers :-" "");
      reflexivity.
  - apply (proj1 (match_spans_first_to_last
                    (sample_world (inr (Some "a {b} c {d} e")) (inr one_image))
                    sample_config (post_as_alice label_body) "sk-cork-4711" "aGVsbG8="
                    "a {b} c {d} e" (sample_model_replies _ _))
                 "a {b} c " "d" " e").
    reflexivity.
Defined.

(** ** The image search *)

Lemma typeKeyword_other (t : string) :
  t <> "" -> t <> "rosé" -> t <> "sparkling" -> t <> "dessert" ->
  typeKeyword (JStr t) = inr (t ++ " wine").
Proof.
  intros H0 H1 H2 H3. unfold typeKeyword, strict_eq.
  apply String.eqb_neq in H1, H2, H3. rewrite H1, H2, H3.
  destruct t; [congruence | reflexivity].
Qed.

Lemma typeKeyword_not_string (v : JSON) :
  (forall s, v <> JStr s) -> ToBoolean v = true ->
  typeKeyword v = match ToString v with
                  | inr rendered => inr (rendered ++ " wine")
                  | inl error => inl error
                  end.
Proof.
  intros Hv Ht. unfold typeKeyword. rewrite Ht.
  destruct v; try reflexivity. now destruct (Hv s).
Qed.

Lemma or_empty_truthy (v : JSON) : ToBoolean v = true -> or_empty (Some v) = v.
Proof. intros H. unfold or_empty. now rewrite H. Qed.

Lemma or_empty_falsy (v : JSON) : ToBoolean v = false -> or_empty (Some v) = JStr "".
Proof. intros H. unfold or_empty. now rewrite H. Qed.

Lemma typeKeyword_string (t : string) : exists kw, typeKeyword (JStr t) = inr kw.
Proof.
  unfold typeKeyword, strict_eq.
  destruct (t =? "rosé")%string; [eexists; reflexivity|].
  destruct (t =? "sparkling")%string; [eexists; reflexivity|].
  destruct (t =? "dessert")%string; [eexists; reflexivity|].
  destruct t; eexists; reflexivity.
Qed.

(** The run of [searchWineImage] once the credentials and the query are
    there: the address is composed, and the search is made unless that
    throws. *)
Lemma search_after_compose (W : World) (config : FunctionsConfig) (req : Request)
  (p : DecodedIdToken) (k c : string) (q : JSON) :
  method req = "POST" -> accepts W req p ->
  getGoogleApiKey config = Some k -> k <> "" ->
  getGoogleCx config = Some c -> c <> "" ->
  query (body req) = Some q -> ToBoolean q = true ->
  exists h, authorization req = Some h /\
  let failed (error : Error) :=
    bind (console_error "Google search error:" error) (fun _ =>
    bind (res_status 500) (fun _ =>
    res_json (JObj [("error", JStr "Failed to search images");
                    ("message", JStr (message error))]))) in
  run (searchWineImage W config req)
  = snd (match composeUrl k c q (type (body req)) with
         | inr url =>
             bind (await_fetch_json W url) (fun r =>
               match r with
               | inr data =>
                   match items data with
                   | Some (item0 :: _) =>
                       res_json (JObj [("success", JBool true);
                                       ("imageUrl", JStr (link item0))])
                   | _ =>
                       res_json (JObj [("success", JBool true); ("imageUrl", JNull);
                                       ("message", JStr "No images found")])
                   end
               | inl error => failed error
               end)
         | inl error => failed error
         end (mkSt (mkRes 200 cors_headers []) [CallVerifyIdToken (idToken_of h)])).
Proof.
  intros Hm Hp Hk Hk' Hc Hc' Hq Hq'.
  destruct (verifyAuth_accepted W req (mkSt (mkRes 200 cors_headers []) []) p Hp)
    as (h & Ha & Hv).
  exists h. split; [exact Ha|]. cbv zeta.
  unfold run. enter_post Hm. rewrite Hv. cbn [fst snd]. rewrite Hk, Hc.
  destruct k as [|kc k]; [congruence|]. destruct c as [|cc c]; [congruence|].
  rewrite Hq. cbv zeta. rewrite Hq'. unfold composeUrl.
  destruct (searchQuery q (type (body req))) as [e|sq]; [reflexivity|].
  destruct (searchUrl _ _ sq) as [e|url]; reflexivity.
Qed.

(** C4: for a query that is a non-empty string, the search text is
    [<query> <typeKeyword> bottle], where the keyword is [rosé wine],
    [sparkling wine champagne] or [dessert wine] for the types [rosé],
    [sparkling] and [dessert], [<type> wine] for every other non-empty
    type, and [wine] when the type is empty or absent.  A type that is no
    string counts as empty when it is falsy ([null], [false], zero) and is
    rendered as a template literal renders it otherwise.  The text goes,
    percent-encoded, into the address of the one search request; when it
    holds a surrogate without partner the encoding throws, and the answer
    is 500 without a search. *)
Theorem search_query_composition (W : World) (config : FunctionsConfig)
  (req : Request) (p : DecodedIdToken) (k c q : string) :
  method req = "POST" -> accepts W req p ->
  getGoogleApiKey config = Some k -> k <> "" ->
  getGoogleCx config = Some c -> c <> "" ->
  query (body req) = Some (JStr q) -> q <> "" ->
  (forall v, type (body req) = Some v -> (forall s, v <> JStr s) ->
             ToBoolean v = true -> exists rendered, ToString v = inr rendered) ->
  exists typeKw,
    (type (body req) = Some (JStr "rosé") -> typeKw = "rosé wine") /\
    (type (body req) = Some (JStr "sparkling") -> typeKw = "sparkling wine champagne") /\
    (type (body req) = Some (JStr "dessert") -> typeKw = "dessert wine") /\
    (forall t, type (body req) = Some (JStr t) ->
               t <> "" -> t <> "rosé" -> t <> "sparkling" -> t <> "dessert" ->
               typeKw = t ++ " wine") /\
    (type (body req) = None \/ type (body req) = Some (JStr "") -> typeKw = "wine") /\
    (forall v, type (body req) = Some v -> ToBoolean v = false -> typeKw = "wine") /\
    (forall v rendered, type (body req) = Some v -> (forall s, v <> JStr s) ->
                        ToBoolean v = true -> ToString v = inr rendered ->
                        typeKw = rendered ++ " wine") /\
    (forall encoded,
       encodeURIComponent (q ++ " " ++ typeKw ++ " bottle") = inr encoded ->
       exists h rest,
         authorization req = Some h /\
         calls (searchWineImage W config req)
         = CallVerifyIdToken (idToken_of h)
           :: CallFetch ("https://www.googleapis.com/customsearch/v1?key=" ++ k ++
                         "&cx=" ++ c ++ "&q=" ++ encoded ++
                         "&searchType=image&num=1&imgType=photo") :: rest /\
         no_upstream rest) /\
    (forall e,
       encodeURIComponent (q ++ " " ++ typeKw ++ " bottle") = inl e ->
       statusCode (response (searchWineImage W config req)) = 500 /\
       no_upstream (calls (searchWineImage W config req))).
Proof.
  intros Hm Hp Hk Hk' Hc Hc' Hq Hq' Hrender.
  assert (Hkw : exists kw, typeKeyword (or_empty (type (body req))) = inr kw).
  { destruct (type (body req)) as [v|]; [|now exists "wine"].
    destruct (ToBoolean v) eqn:Ht.
    - rewrite (or_empty_truthy v Ht).
      destruct v; try apply typeKeyword_string;
        rewrite typeKeyword_not_string by (assumption || discriminate);
        (edestruct (Hrender _ eq_refl) as (r & ->);
         [discriminate | assumption | eexists; reflexivity]).
    - rewrite (or_empty_falsy v Ht). now exists "wine". }
  destruct Hkw as (kw & Hkw). exists kw.
  assert (Hstr : forall t, type (body req) = Some (JStr t) ->
                           typeKeyword (JStr t) = inr kw \/ (t = "" /\ kw = "wine")).
  { intros t Ht. rewrite Ht in Hkw. destruct t as [|a t].
    - right. split; [reflexivity|]. cbn in Hkw. congruence.
    - left. rewrite or_empty_truthy in Hkw by reflexivity. exact Hkw. }
  split; [intros Ht; destruct (Hstr _ Ht) as [H|[H _]];
          [cbn in H; congruence | discriminate H]|].
  split; [intros Ht; destruct (Hstr _ Ht) as [H|[H _]];
          [cbn in H; congruence | discriminate H]|].
  split; [intros Ht; destruct (Hstr _ Ht) as [H|[H _]];
          [cbn in H; congruence | discriminate H]|].
  split.
  { intros t Ht H0 H1 H2 H3. destruct (Hstr _ Ht) as [H|[H _]]; [|congruence].
    rewrite (typeKeyword_other t H0 H1 H2 H3) in H. congruence. }
  split.
  { intros [Ht|Ht]; rewrite Ht in Hkw; cbn in Hkw; congruence. }
  split.
  { intros v Ht Hf. rewrite Ht, (or_empty_falsy v Hf) in Hkw. cbn in Hkw. congruence. }
  split.
  { intros v r Ht Hns Htrue Hr.
    rewrite Ht, (or_empty_truthy v Htrue), (typeKeyword_not_string v Hns Htrue), Hr in Hkw.
    congruence. }
  destruct (search_after_compose W config req p k c (JStr q) Hm Hp Hk Hk' Hc Hc' Hq)
    as (h & Ha & Hrun); [now destruct q|].
  cbv zeta in Hrun. unfold composeUrl, searchQuery in Hrun.
  rewrite Hkw in Hrun. unfold ToString in Hrun. cbn [render] in Hrun.
  unfold searchUrl in Hrun.
  split.
  - intros encoded He. rewrite He in Hrun. exists h.
    unfold calls. rewrite Hrun. unfold await_fetch_json. step.
    destruct (fetch_json W _) as [e|[[[|item0 items0]|]]]; do 3 step;
      eexists; (split; [exact Ha|]); split; reflexivity.
  - intros e He. rewrite He in Hrun. unfold response, calls. rewrite Hrun.
    split; reflexivity.
Qed.

Lemma search_query_composition_witness :
  calls (searchWineImage happy_world sample_config
           (post_as_alice (search_body (Some (JStr "red")))))
  = [CallVerifyIdToken (Some "token-of-alice"); CallFetch (sample_url "red%20wine")] /\
  calls (searchWineImage happy_world sample_config
           (post_as_alice (search_body (Some (JStr "sparkling")))))
  = [CallVerifyIdToken (Some "token-of-alice");
     CallFetch (sample_url "sparkling%20wine%20champagne")] /\
  calls (searchWineImage happy_world sample_config
           (post_as_alice (search_body (Some (JBool false)))))
  = [CallVerifyIdToken (Some "token-of-alice"); CallFetch (sample_url "wine")].
Proof.
  assert (Hacc : forall t, accepts happy_world (post_as_alice (search_body t))
                             (mkDecodedIdToken "alice"))
    by (intros t; exists "Bearer token-of-alice"; repeat split).
  assert (Hnone : forall v : JSON, Some (JStr "red") = Some v \/
                    Some (JStr "sparkling") = Some v \/ Some (JBool false) = Some v ->
                  (forall s, v <> JStr s) -> ToBoolean v = true ->
                  exists rendered, ToString v = inr rendered).
  { intros v [H|[H|H]] Hns Ht; injection H as <-;
      [now destruct (Hns "red") | now destruct (Hns "sparkling") | discriminate Ht]. }
  split; [|split].
  - destruct (search_query_composition happy_world sample_config
                (post_as_alice (search_body (Some (JStr "red"))))
                (mkDecodedIdToken "alice") "AIza-cork-0815" "cx-cork" "Chateau X"
                eq_refl (Hacc _) eq_refl ltac:(discriminate) eq_refl ltac:(discriminate)
                eq_refl ltac:(discriminate)
                (fun v H => Hnone v (or_introl H)))
      as (kw & _ & _ & _ & Hother & _ & _ & _ & Hfetch & _).
    rewrite (Hother "red" eq_refl) in Hfetch by discriminate.
    destruct (Hfetch _ eq_refl) as (h & rest & Ha & Hcalls & _).
    injection Ha as <-. rewrite Hcalls. vm_compute in Hcalls |- *.
    now injection Hcalls as <-.
  - destruct (search_query_composition happy_world sample_config
                (post_as_alice (search_body (Some (JStr "sparkling"))))
                (mkDecodedIdToken "alice") "AIza-cork-0815" "cx-cork" "Chateau X"
                eq_refl (Hacc _) eq_refl ltac:(discriminate) eq_refl ltac:(discriminate)
                eq_refl ltac:(discriminate)
                (fun v H => Hnone v (or_intror (or_introl H))))
      as (kw & _ & Hsp & _ & _ & _ & _ & _ & Hfetch & _).
    rewrite (Hsp eq_refl) in Hfetch.
    destruct (Hfetch _ eq_refl) as (h & rest & Ha & Hcalls & _).
    injection Ha as <-. rewrite Hcalls. vm_compute in Hcalls |- *.
    now injection Hcalls as <-.
  - destruct (search_query_composition happy_world sample_config
                (post_as_alice (search_body (Some (JBool false))))
                (mkDecodedIdToken "alice") "AIza-cork-0815" "cx-cork" "Chateau X"
                eq_refl (Hacc _) eq_refl ltac:(discriminate) eq_refl ltac:(discriminate)
                eq_refl ltac:(discriminate)
                (fun v H => Hnone v (or_intror (or_intror H))))
      as (kw & _ & _ & _ & _ & _ & Hfalsy & _ & Hfetch & _).
    rewrite (Hfalsy _ eq_refl eq_refl) in Hfetch.
    destruct (Hfetch _ eq_refl) as (h & rest & Ha & Hcalls & _).
    injection Ha as <-. rewrite Hcalls. vm_compute in Hcalls |- *.
    now injection Hcalls as <-.
Defined.



(** ** The branches of the protected functions *)

Lemma startsWith_receiver_error (v : JSON) (e : Error) :
  startsWith_receiver v = inl e -> e = startsWith_error.
Proof. destruct v; simpl; congruence. Qed.

Lemma ToString_error (v : JSON) (e : Error) :
  ToString v = inl e -> e = primitive_error.
Proof. unfold ToString. destruct (render v); congruence. Qed.

Lemma typeKeyword_error (v : JSON) (e : Error) :
  typeKeyword v = inl e -> e = primitive_error.
Proof.
  unfold typeKeyword.
  destruct (strict_eq v "rosé"); [discriminate|].
  destruct (strict_eq v "sparkling"); [discriminate|].
  destruct (strict_eq v "dessert"); [discriminate|].
  destruct (ToBoolean v); [|discriminate].
  destruct (ToString v) eqn:E; [|discriminate].
  intros H. injection H as <-. exact (ToString_error _ _ E).
Qed.

Lemma searchQuery_error (q : JSON) (t : option JSON) (e : Error) :
  searchQuery q t = inl e -> e = primitive_error.
Proof.
  unfold searchQuery.
  destruct (typeKeyword (or_empty t)) eqn:E1.
  - intros H. injection H as <-. exact (typeKeyword_error _ _ E1).
  - destruct (ToString q) eqn:E2; [|discriminate].
    intros H. injection H as <-. exact (ToString_error _ _ E2).
Qed.

Lemma searchUrl_error (k c sq : string) (e : Error) :
  searchUrl k c sq = inl e -> e = uri_error.
Proof.
  unfold searchUrl, encodeURIComponent.
  destruct (has_lone_surrogate sq); congruence.
Qed.

(** Run a branch to its end. *)
Ltac run_leaf :=
  do 3 step; cbn [items fst snd res trace statusCode headers sent app].

(** The branches of the two protected functions, each closed by [leaf];
    the tests passed on the way are kept as hypotheses. *)
Ltac gate_cases W req leaf :=
  enter;
  destruct (method req =? "OPTIONS")%string eqn:Hoptions; [leaf|];
  destruct (negb (method req =? "POST")%string) eqn:Hpost; [leaf|];
  rewrite ?bind_apply; unfold verifyAuth;
  destruct (authorization req) as [h|] eqn:Hauth; [|leaf];
  destruct (negb (truthy (Some h)) || negb (startsWith h "Bearer ")) eqn:Hbearer;
    [leaf|];
  cbv zeta; unfold await_verifyIdToken; step;
  destruct (verifyIdToken W (nth_error (split h "Bearer ") 1)) as [e|p] eqn:Hverify;
    [leaf|]; step.

Ltac analyze_cases W config req leaf :=
  gate_cases W req leaf;
  destruct (getOpenAIKey config) as [[|kc k]|] eqn:Hkey; [leaf| |leaf];
  cbv zeta;
  destruct (imageBase64 (body req)) as [imageValue|] eqn:Himage; [|leaf];
  destruct (ToBoolean imageValue) eqn:Htruthy; [|leaf];
  destruct (startsWith_receiver imageValue) as [thrown|imageText] eqn:Hreceiver;
    [pose proof (startsWith_receiver_error _ _ Hreceiver); subst thrown; leaf|];
  step;
  destruct (chat_completions_create W _ _) as [e|[content|]] eqn:Hcreate;
    [leaf| |leaf];
  step; destruct (regex_match content) eqn:Hmatch; step;
  destruct (JSON_parse W _) eqn:Hparse; leaf.

Ltac search_cases W config req leaf :=
  gate_cases W req leaf;
  destruct (getGoogleApiKey config) as [[|kc k]|] eqn:Hkey;
  destruct (getGoogleCx config) as [[|cc c]|] eqn:Hcx;
  first
    [ solve [leaf]
    | cbv zeta;
      destruct (query (body req)) as [queryValue|] eqn:Hquery; [|leaf];
      destruct (ToBoolean queryValue) eqn:Htruthy; [|leaf];
      destruct (searchQuery queryValue (type (body req))) as [thrown|searchText]
        eqn:Hcomposed;
        [pose proof (searchQuery_error _ _ _ Hcomposed); subst thrown; leaf|];
      destruct (searchUrl _ _ searchText) as [thrown|address] eqn:Haddress;
        [pose proof (searchUrl_error _ _ _ _ Haddress); subst thrown; leaf|];
      step;
      destruct (fetch_json W _) as [e|[[[|item0 items0]|]]] eqn:Hfetch; leaf ].

(** ** What an error body can contain *)

Ltac split_texts :=
  repeat match goal with
         | H : (_ || _) = true |- _ => apply orb_true_iff in H; destruct H
         | H : false = true |- _ => discriminate H
         | H : In _ (_ :: _) |- _ => destruct H
         | H : In _ [] |- _ => destruct H
         | H : SentJson _ = SentJson _ |- _ => injection H as <-
         | H : SentText _ = SentJson _ |- _ => discriminate H
         end.

(** Close one branch of a handler: every text of the body sent is a fixed
    text, the message of an error of the runtime, or the text the upstream
    answered with. *)
Ltac account :=
  run_leaf; intros Hstatus Hin Hs;
  cbn [contains_text existsb fst snd raw_of] in *;
  split_texts;
  cbn [contains_text existsb fst snd raw_of] in *;
  split_texts;
  match goal with
  | H : occurs_in ?s ?t = true |- exists _, _ /\ occurs_in ?s _ = true =>
      exists t; split; [|exact H];
      first [ left; simpl; tauto
            | right; left; simpl; tauto
            | right; right; cbn [upstream_texts flat_map upstream_text app];
              match goal with
              | E : chat_completions_create _ _ _ = _ |- _ => rewrite E
              | E : fetch_json _ _ = _ |- _ => rewrite E
              end; simpl; tauto ]
  | H : _ <= _ |- _ => exfalso; cbn in H; lia
  end.

Lemma analyze_texts_accounted (W : World) (config : FunctionsConfig) (req : Request) :
  texts_accounted W (analyzeWineLabel W config req).
Proof.
  intros s v. analyze_cases W config req account.
Qed.

Lemma search_texts_accounted (W : World) (config : FunctionsConfig) (req : Request) :
  texts_accounted W (searchWineImage W config req).
Proof.
  intros s v. search_cases W config req account.
Qed.

(** C5, as the code has it: whatever text occurs in the body of an error
    answer (status 400 or more) occurs in one of the fixed keys and
    messages of the handlers, in the message of an error the language
    runtime threw ([URI malformed], the two [TypeError]s of a body value of
    the wrong kind), or in a text an upstream service supplied during the
    run: the message of its failure, passed on under [message], or the
    model's reply, passed on under [raw].  The principal and the three
    configuration values are never written into a body by the handlers
    themselves. *)
Theorem error_body_texts (W : World) (config : FunctionsConfig)
  (ep : Endpoint) (req : Request) (s : string) (v : JSON) :
  400 <= statusCode (response (handler W config ep req)) ->
  In (SentJson v) (sent (response (handler W config ep req))) ->
  contains_text s v = true ->
  exists t,
    (In t fixed_texts \/ In t runtime_texts \/
     In t (upstream_texts W (calls (handler W config ep req)))) /\
    occurs_in s t = true.
Proof.
  destruct ep.
  - apply analyze_texts_accounted.
  - apply search_texts_accounted.
  - intros H. cbn in H. lia.
Qed.

Lemma error_body_texts_witness :
  exists t,
    (In t fixed_texts \/ In t runtime_texts \/
     In t (upstream_texts key_echoing_world
             (calls (handler key_echoing_world sample_config AnalyzeWineLabel
                       (post_as_alice label_body))))) /\
    occurs_in "sk-cork-4711" t = true.
Proof.
  apply (error_body_texts key_echoing_world sample_config AnalyzeWineLabel
           (post_as_alice label_body) "sk-cork-4711"
           (JObj [("error", JStr "Failed to analyze image");
                  ("message", JStr "401 Incorrect API key provided: sk-cork-4711")])).
  - vm_compute. discriminate.
  - left. reflexivity.
  - reflexivity.
Defined.

(** C5 as stated fails: the message of an upstream failure is passed on to
    the client, so a provider that names the key it rejects puts the key
    into the error body. *)
Lemma error_body_leak_counterexample :
  getOpenAIKey sample_config = Some "sk-cork-4711" /\
  response (handler key_echoing_world sample_config AnalyzeWineLabel
              (post_as_alice label_body))
  = mkRes 500 cors_headers
      [SentJson (JObj [("error", JStr "Failed to analyze image");
                       ("message",
                        JStr "401 Incorrect API key provided: sk-cork-4711")])] /\
  contains_text "sk-cork-4711"
    (JObj [("error", JStr "Failed to analyze image");
           ("message", JStr "401 Incorrect API key provided: sk-cork-4711")])
  = true /\
  ~ (forall W config ep req secret v,
       getOpenAIKey config = Some secret ->
       400 <= statusCode (response (handler W config ep req)) ->
       In (SentJson v) (sent (response (handler W config ep req))) ->
       contains_text secret v = false).
Proof.
  split; [reflexivity|]. split; [reflexivity|]. split; [reflexivity|].
  intros H.
  specialize (H key_echoing_world sample_config AnalyzeWineLabel
                (post_as_alice label_body) "sk-cork-4711"
                (JObj [("error", JStr "Failed to analyze image");
                       ("message",
                        JStr "401 Incorrect API key provided: sk-cork-4711")])
                eq_refl).
  assert (Hs : 400 <= statusCode (response (handler key_echoing_world sample_config
                                     AnalyzeWineLabel (post_as_alice label_body))))
    by (vm_compute; discriminate).
  specialize (H Hs (or_introl eq_refl)). vm_compute in H. discriminate H.
Qed.

(** The handlers look at the principal only to see that there is one: a
    run does not depend on who the caller is. *)
Lemma principal_irrelevant (f : DecodedIdToken -> DecodedIdToken) (W : World)
  (config : FunctionsConfig) (ep : Endpoint) (req : Request) :
  run (handler (with_principal f W) config ep req) = run (handler W config ep req).
Proof.
  destruct ep; [| |reflexivity]; unfold run; enter;
    (destruct (method req =? "OPTIONS")%string; [reflexivity|]);
    (destruct (negb (method req =? "POST")%string); [reflexivity|]);
    rewrite ?bind_apply; unfold verifyAuth;
    (destruct (authorization req) as [h|]; [|reflexivity]);
    (destruct (negb (truthy (Some h)) || negb (startsWith h "Bearer "));
       [reflexivity|]);
    cbv zeta; unfold await_verifyIdToken; step;
    unfold call_JSON_parse, with_principal;
    cbn [verifyIdToken JSON_parse chat_completions_create fetch_json];
    destruct (verifyIdToken W _) as [e|p]; reflexivity.
Qed.

(** Nor does an answer depend on the values of the secrets, beyond which
    of them are set, as long as the upstream answers do not. *)
Lemma secret_values_irrelevant (W : World) (c1 c2 : FunctionsConfig)
  (ep : Endpoint) (req : Request) :
  same_presence c1 c2 -> secret_blind W ->
  response (handler W c1 ep req) = response (handler W c2 ep req).
Proof.
  intros (Ho & Hg & Hx) (Hcreate & Hfetch). destruct ep.
  - enter.
    destruct (method req =? "OPTIONS")%string; [reflexivity|].
    destruct (negb (method req =? "POST")%string); [reflexivity|].
    rewrite ?bind_apply.
    destruct (verifyAuth W req _) as [[p|] st]; [|reflexivity]. cbn [fst snd].
    destruct (getOpenAIKey c1) as [[|a1 k1]|], (getOpenAIKey c2) as [[|a2 k2]|];
      try discriminate Ho; try reflexivity.
    cbv zeta.
    destruct (imageBase64 (body req)) as [imageValue|]; [|reflexivity].
    destruct (ToBoolean imageValue); [|reflexivity].
    destruct (startsWith_receiver imageValue) as [thrown|imageText];
      [reflexivity|].
    step. rewrite (Hcreate (String a1 k1) (String a2 k2)).
    destruct (chat_completions_create W _ _) as [e|[content|]]; do 3 step;
      try reflexivity.
    destruct (regex_match content); step; destruct (JSON_parse W _); reflexivity.
  - enter.
    destruct (method req =? "OPTIONS")%string; [reflexivity|].
    destruct (negb (method req =? "POST")%string); [reflexivity|].
    rewrite ?bind_apply.
    destruct (verifyAuth W req _) as [[p|] st]; [|reflexivity]. cbn [fst snd].
    destruct (getGoogleApiKey c1) as [[|a1 k1]|], (getGoogleApiKey c2) as [[|a2 k2]|];
      try discriminate Hg;
      destruct (getGoogleCx c1) as [[|b1 x1]|], (getGoogleCx c2) as [[|b2 x2]|];
      try discriminate Hx; try reflexivity.
    cbv zeta.
    destruct (query (body req)) as [queryValue|]; [|reflexivity].
    destruct (ToBoolean queryValue); [|reflexivity].
    destruct (searchQuery queryValue (type (body req))) as [thrown|searchText];
      [reflexivity|].
    unfold searchUrl.
    destruct (encodeURIComponent searchText) as [thrown|encoded]; [reflexivity|].
    step.
    match goal with
    | |- context [fetch_json W ?u1] =>
        match goal with
        | |- context [fetch_json W ?u2] =>
            tryif constr_eq u1 u2 then fail else rewrite (Hfetch u1 u2)
        end
    end.
    destruct (fetch_json W _) as [e|[[[|item0 items]|]]]; reflexivity.
  - assert (Hj : truthy (js_and (getGoogleApiKey c1) (getGoogleCx c1))
                 = truthy (js_and (getGoogleApiKey c2) (getGoogleCx c2))).
    { unfold js_and.
      destruct (truthy (getGoogleApiKey c1)) eqn:E1,
               (truthy (getGoogleApiKey c2)) eqn:E2;
        try discriminate Hg; [exact Hx | now rewrite E1, E2]. }
    unfold response, run, handler, health. rewrite Ho, Hj. reflexivity.
Qed.

(** ** Every run answers once *)

Lemma sends_once (W : World) (config : FunctionsConfig) (ep : Endpoint)
  (req : Request) :
  List.length (sent (response (handler W config ep req))) = 1%nat.
Proof.
  destruct ep; [| |reflexivity].
  - analyze_cases W config req ltac:(run_leaf; reflexivity).
  - search_cases W config req ltac:(run_leaf; reflexivity).
Qed.

(** ** Examples *)

Example split_bearer : split "Bearer token-of-alice" "Bearer " = [""; "token-of-alice"].
Proof. reflexivity. Qed.

Example split_bearer_twice : split "Bearer Bearer x" "Bearer " = [""; ""; "x"].
Proof. reflexivity. Qed.

Example match_is_greedy :
  regex_match "a {b} c {d} e" = Some "{b} c {d}".
Proof. reflexivity. Qed.

Example match_needs_open_then_close : regex_match "} then {" = None.
Proof. reflexivity. Qed.

Example query_rose :
  searchQuery (JStr "Chateau X") (Some (JStr "rosé"))
  = inr "Chateau X rosé wine bottle".
Proof. reflexivity. Qed.

Example query_sparkling :
  searchQuery (JStr "Chateau X") (Some (JStr "sparkling"))
  = inr "Chateau X sparkling wine champagne bottle".
Proof. reflexivity. Qed.

Example query_red :
  searchQuery (JStr "Chateau X") (Some (JStr "red")) = inr "Chateau X red wine bottle".
Proof. reflexivity. Qed.

Example query_untyped :
  searchQuery (JStr "Chateau X") None = inr "Chateau X wine bottle" /\
  searchQuery (JStr "Chateau X") (Some (JStr "")) = inr "Chateau X wine bottle".
Proof. split; reflexivity. Qed.

Example query_of_other_values :
  searchQuery (JArr []) (Some (JArr [JStr "sparkling"])) = inr " sparkling wine bottle" /\
  searchQuery (JNum "12345") (Some (JNum "0")) = inr "12345 wine bottle" /\
  searchQuery (JArr [JNum "1"; JNull; JArr [JBool true; JStr "x"]]) (Some (JObj []))
  = inr "1,,true,x [object Object] wine bottle" /\
  searchQuery (JStr "Chateau X") (Some unprintable) = inl primitive_error.
Proof. repeat split; reflexivity. Qed.

Example encoded_query :
  encodeURIComponent "Chateau X rosé wine bottle"
  = inr "Chateau%20X%20ros%C3%A9%20wine%20bottle".
Proof. reflexivity. Qed.

Example encoded_surrogate :
  encodeURIComponent ("Chateau " ++ lone_surrogate ++ " wine bottle") = inl uri_error.
Proof. reflexivity. Qed.

Example image_found :
  run (searchWineImage happy_world sample_config
         (post_as_alice (search_body (Some (JStr "red")))))
  = mkSt (mkRes 200 cors_headers
            [SentJson (JObj [("success", JBool true);
                             ("imageUrl", JStr "https://img.example/chateau-x.jpg")])])
         [CallVerifyIdToken (Some "token-of-alice");
          CallFetch ("https://www.googleapis.com/customsearch/v1?key=AIza-cork-0815" ++
                     "&cx=cx-cork&q=Chateau%20X%20red%20wine%20bottle" ++
                     "&searchType=image&num=1&imgType=photo")].
Proof. reflexivity. Qed.

Example no_image_found :
  response (searchWineImage (sample_world (inr None) (inr (mkSearchData None)))
              sample_config (post_as_alice (search_body None)))
  = mkRes 200 cors_headers
      [SentJson (JObj [("success", JBool true); ("imageUrl", JNull);
                       ("message", JStr "No images found")])].
Proof. reflexivity. Qed.

Example null_content :
  response (analyzeWineLabel (sample_world (inr None) (inr one_image))
              sample_config (post_as_alice label_body))
  = mkRes 500 cors_headers
      [SentJson (JObj [("error", JStr "Failed to parse wine data"); ("raw", JNull)])].
Proof. reflexivity. Qed.

Example image_is_a_number :
  run (analyzeWineLabel happy_world sample_config
         (post_as_alice (mkBody (Some (JNum "12345")) None None)))
  = mkSt (mkRes 500 cors_headers
            [SentJson (JObj [("error", JStr "Failed to analyze image");
                             ("message",
                              JStr "imageBase64.startsWith is not a function")])])
         [CallVerifyIdToken (Some "token-of-alice");
          CallConsoleError "OpenAI error:" startsWith_error].
Proof. reflexivity. Qed.

Example query_with_surrogate :
  run (searchWineImage happy_world sample_config
         (post_as_alice (mkBody None (Some (JStr lone_surrogate)) None)))
  = mkSt (mkRes 500 cors_headers
            [SentJson (JObj [("error", JStr "Failed to search images");
                             ("message", JStr "URI malformed")])])
         [CallVerifyIdToken (Some "token-of-alice");
          CallConsoleError "Google search error:" uri_error].
Proof. reflexivity. Qed.

Example get_is_not_allowed :
  response (analyzeWineLabel happy_world sample_config
              (mkRequest "GET" (Some "Bearer token-of-alice") label_body))
  = mkRes 405 cors_headers [SentJson (JObj [("error", JStr "Method not allowed")])].
Proof. reflexivity. Qed.

(** * Further properties of the handlers *)

(** ** Method and authentication gates *)

Lemma method_other (req : Request) :
  method req <> "OPTIONS" -> method req <> "POST" ->
  (method req =? "OPTIONS")%string = false /\
  negb (method req =? "POST")%string = true.
Proof.
  intros H1 H2. apply String.eqb_neq in H1, H2. now rewrite H1, H2.
Qed.

(** X1: a protected function answers every method other than OPTIONS and
    POST with 405 [Method not allowed], before any look at the
    Authorization header: nothing is called. *)
Theorem method_not_allowed (W : World) (config : FunctionsConfig)
  (ep : Endpoint) (req : Request) :
  protected ep = true ->
  method req <> "OPTIONS" -> method req <> "POST" ->
  response (handler W config ep req)
  = mkRes 405 cors_headers [SentJson (JObj [("error", JStr "Method not allowed")])] /\
  calls (handler W config ep req) = [].
Proof.
  intros Hp H1 H2. destruct (method_other req H1 H2) as [E1 E2].
  destruct ep; [| |discriminate Hp]; enter; rewrite E1, E2; split; reflexivity.
Qed.

Lemma method_not_allowed_witness :
  response (handler happy_world sample_config SearchWineImage get_request)
  = mkRes 405 cors_headers [SentJson (JObj [("error", JStr "Method not allowed")])] /\
  calls (handler happy_world sample_config SearchWineImage get_request) = [].
Proof.
  apply (method_not_allowed happy_world sample_config SearchWineImage get_request);
    [reflexivity | discriminate | discriminate].
Defined.

(** X2: [verifyAuth] returns [null] exactly when it has sent a 401 itself,
    and a principal exactly when the identity service accepted the token of
    the header; in that case it has left the response object untouched.
    Either way it adds no upstream call to the trace. *)
Theorem verifyAuth_sentinel (W : World) (req : Request) (st : St) :
  (exists extra, trace (snd (verifyAuth W req st)) = (trace st ++ extra)%list /\
                 no_upstream extra) /\
  match fst (verifyAuth W req st) with
  | None =>
      (forall p, ~ accepts W req p) /\
      exists msg,
        res (snd (verifyAuth W req st))
        = mkRes 401 (headers (res st))
            (sent (res st) ++ [SentJson (JObj [("error", JStr msg)])])
  | Some p =>
      accepts W req p /\ res (snd (verifyAuth W req st)) = res st
  end.
Proof.
  destruct (authorization req) as [h|] eqn:Ha.
  2:{ rewrite (verifyAuth_no_token W req st (or_introl Ha)). cbn [fst snd trace res].
      split; [exists []; now rewrite app_nil_r|]. split; [|eexists; reflexivity].
      intros p (h & Hh & _). congruence. }
  destruct (startsWith h "Bearer ") eqn:Hb.
  2:{ rewrite (verifyAuth_no_token W req st
                 (or_intror (ex_intro _ h (conj Ha Hb)))).
      cbn [fst snd trace res].
      split; [exists []; now rewrite app_nil_r|]. split; [|eexists; reflexivity].
      intros p (h' & Hh & Hb' & _). congruence. }
  destruct (verifyIdToken W (idToken_of h)) as [e|p] eqn:Hv.
  - rewrite (verifyAuth_rejected W req st h e Ha Hb Hv). cbn [fst snd trace res].
    split; [eexists; rewrite <- app_assoc; split; reflexivity|].
    split; [|eexists; reflexivity].
    intros p (h' & Hh & _ & Hv'). congruence.
  - assert (Hp : accepts W req p) by (exists h; repeat split; assumption).
    destruct (verifyAuth_accepted W req st p Hp) as (h' & Ha' & ->).
    cbn [fst snd trace res]. split; [eexists; split; reflexivity|].
    split; [exact Hp | now destruct st].
Qed.

(** ** The token [verifyAuth] extracts *)

Lemma rev_string_app (acc s : string) : rev_string acc s = rev_string "" s ++ acc.
Proof.
  revert acc. induction s as [|c s IH]; intros acc; simpl; [reflexivity|].
  rewrite (IH (String c acc)), (IH (String c "")), append_assoc. reflexivity.
Qed.

Lemma prefix_self_app (p x : string) : String.prefix p (p ++ x) = true.
Proof.
  induction p as [|c p IH]; simpl; [now destruct x|].
  destruct (ascii_dec c c); [exact IH | congruence].
Qed.

Lemma length_app (a b : string) :
  String.length (a ++ b) = (String.length a + String.length b)%nat.
Proof. induction a as [|c a IH]; simpl; [reflexivity | now rewrite IH]. Qed.

(** A prefix test looks at no more characters than the prefix has. *)
Lemma prefix_app_long (p x y : string) :
  (String.length p <= String.length x)%nat ->
  String.prefix p (x ++ y) = String.prefix p x.
Proof.
  revert x. induction p as [|c p IH]; intros x H.
  - destruct x, y; reflexivity.
  - destruct x as [|d x]; simpl in H; [lia|]. simpl.
    destruct (ascii_dec c d); [apply IH; lia | reflexivity].
Qed.

Lemma split_go_skip (sep cur x t : string) :
  split_go sep (String.length x) cur (x ++ t) = split_go sep 0 cur t.
Proof.
  induction x as [|c x IH]; [reflexivity | exact IH].
Qed.

(** A separator at the start of the text closes the piece being read. *)
Lemma split_go_at_sep (c0 : ascii) (sep' cur t : string) :
  split_go (String c0 sep') 0 cur (String c0 sep' ++ t)
  = rev_string "" cur :: split_go (String c0 sep') 0 "" t.
Proof.
  change (String c0 sep' ++ t) with (String c0 (sep' ++ t)).
  cbn [split_go].
  change (String c0 (sep' ++ t)) with (String c0 sep' ++ t).
  rewrite prefix_self_app.
  replace (String.length (String c0 sep') - 1)%nat with (String.length sep')
    by (simpl; lia).
  now rewrite split_go_skip.
Qed.

(** A text without separator is one piece. *)
Lemma split_go_no_sep (sep cur t : string) :
  occurs_in sep t = false -> split_go sep 0 cur t = [rev_string "" cur ++ t].
Proof.
  revert cur. induction t as [|c t IH]; intros cur H.
  - cbn [split_go]. now rewrite append_nil_r.
  - cbn [occurs_in] in H. apply orb_false_iff in H as [Hp Ht].
    cbn [split_go]. rewrite Hp, (IH _ Ht).
    cbn [rev_string]. rewrite (rev_string_app (String c "")), append_assoc.
    reflexivity.
Qed.

(** The first piece ends where the separator first occurs. *)
Lemma split_go_first_sep (a b cur : string) :
  occurs_in "Bearer " (a ++ "Bearer") = false ->
  split_go "Bearer " 0 cur (a ++ "Bearer " ++ b)
  = (rev_string "" cur ++ a) :: split_go "Bearer " 0 "" b.
Proof.
  revert cur. induction a as [|c a IH]; intros cur H.
  - rewrite append_nil_r. apply (split_go_at_sep "B" "earer " cur b).
  - change (String c a ++ "Bearer") with (String c (a ++ "Bearer")) in H.
    cbn [occurs_in] in H. apply orb_false_iff in H as [Hp Ha].
    change (String c a ++ "Bearer " ++ b)
      with (String c (a ++ "Bearer " ++ b)).
    cbn [split_go].
    replace (String c (a ++ "Bearer " ++ b))
      with (String c (a ++ "Bearer") ++ String " " b)
      by (simpl; rewrite append_assoc; reflexivity).
    rewrite prefix_app_long, Hp
      by (simpl; rewrite length_app; simpl; lia).
    rewrite (IH _ Ha). cbn [rev_string].
    rewrite (rev_string_app (String c "")), append_assoc. reflexivity.
Qed.

Lemma split_go_nonempty (sep : string) (skip : nat) (cur s : string) :
  exists x l, split_go sep skip cur s = x :: l.
Proof.
  revert skip cur. induction s as [|c s IH]; intros skip cur.
  - now exists (rev_string "" cur), [].
  - cbn [split_go]. destruct skip; [|apply IH].
    destruct (String.prefix sep (String c s)); [|apply IH].
    destruct (IH (String.length sep - 1)%nat "") as (x & l & ->).
    now exists (rev_string "" cur), (x :: l).
Qed.

Lemma startsWith_app (h p : string) :
  startsWith h p = true -> exists t, h = p ++ t.
Proof.
  unfold startsWith. revert h. induction p as [|c p IH]; intros h H.
  - now exists h.
  - destruct h as [|d h]; [discriminate|]. simpl in H.
    destruct (ascii_dec c d) as [->|]; [|discriminate].
    destruct (IH h H) as (t & ->). now exists t.
Qed.

(** With a header that passes the prefix check, [verifyAuth] submits the
    token and returns what the identity service decides. *)
Lemma verifyAuth_submits (W : World) (req : Request) (st : St) (h token : string) :
  authorization req = Some h -> startsWith h "Bearer " = true ->
  idToken_of h = Some token ->
  fst (verifyAuth W req st)
  = match verifyIdToken W (Some token) with
    | inr p => Some p
    | inl _ => None
    end /\
  exists rest,
    trace (snd (verifyAuth W req st))
    = (trace st ++ CallVerifyIdToken (Some token) :: rest)%list.
Proof.
  intros Ha Hb Htok.
  destruct (verifyIdToken W (Some token)) as [e|p] eqn:Hv; rewrite <- Htok in Hv.
  - rewrite (verifyAuth_rejected W req st h e Ha Hb Hv).
    cbn [fst snd trace]. split; [reflexivity|].
    rewrite Htok, <- app_assoc. eexists. reflexivity.
  - assert (Hp : accepts W req p) by (exists h; repeat split; assumption).
    destruct (verifyAuth_accepted W req st p Hp) as (h' & Ha' & ->).
    cbn [fst snd trace]. split; [reflexivity|].
    assert (h' = h) by congruence. subst h'. rewrite Htok.
    eexists. reflexivity.
Qed.

(** X3: a header that passes the prefix check always yields a token (the
    identity service is never handed [undefined]); when nothing after the
    prefix contains the text [Bearer ] again, the token is all of it. *)
Theorem bearer_token_submitted (W : World) (req : Request) (st : St) (h : string) :
  authorization req = Some h -> startsWith h "Bearer " = true ->
  exists t token,
    h = "Bearer " ++ t /\
    idToken_of h = Some token /\
    (occurs_in "Bearer " t = false -> token = t) /\
    fst (verifyAuth W req st)
    = match verifyIdToken W (Some token) with
      | inr p => Some p
      | inl _ => None
      end /\
    exists rest,
      trace (snd (verifyAuth W req st))
      = (trace st ++ CallVerifyIdToken (Some token) :: rest)%list.
Proof.
  intros Ha Hb. destruct (startsWith_app h "Bearer " Hb) as (t & Ht).
  assert (Hsplit : split h "Bearer " = "" :: split_go "Bearer " 0 "" t).
  { subst h. apply (split_go_at_sep "B" "earer " "" t). }
  destruct (split_go_nonempty "Bearer " 0 "" t) as (token & l & Hl).
  assert (Htok : idToken_of h = Some token).
  { unfold idToken_of. now rewrite Hsplit, Hl. }
  exists t, token. split; [exact Ht|]. split; [exact Htok|]. split.
  - intros Hfree. rewrite (split_go_no_sep _ _ _ Hfree) in Hl.
    now injection Hl as <- _.
  - exact (verifyAuth_submits W req st h token Ha Hb Htok).
Qed.

Lemma bearer_token_submitted_witness :
  exists t token,
    "Bearer token-of-alice" = "Bearer " ++ t /\
    idToken_of "Bearer token-of-alice" = Some token /\
    (occurs_in "Bearer " t = false -> token = t) /\
    fst (verifyAuth happy_world (post_as_alice label_body) (mkSt fresh_res []))
    = match verifyIdToken happy_world (Some token) with
      | inr p => Some p
      | inl _ => None
      end /\
    exists rest,
      trace (snd (verifyAuth happy_world (post_as_alice label_body) (mkSt fresh_res [])))
      = ([] ++ CallVerifyIdToken (Some token) :: rest)%list.
Proof.
  apply (bearer_token_submitted happy_world (post_as_alice label_body)
           (mkSt fresh_res []) "Bearer token-of-alice");
    reflexivity.
Defined.

(** X4: when the text [Bearer ] occurs again after the prefix, the token
    submitted is only what stands between the prefix and that occurrence;
    the rest of the header is dropped. *)
Theorem bearer_token_truncated (W : World) (req : Request) (st : St) (a b : string) :
  authorization req = Some ("Bearer " ++ a ++ "Bearer " ++ b) ->
  occurs_in "Bearer " (a ++ "Bearer") = false ->
  idToken_of ("Bearer " ++ a ++ "Bearer " ++ b) = Some a /\
  exists rest,
    trace (snd (verifyAuth W req st))
    = (trace st ++ CallVerifyIdToken (Some a) :: rest)%list.
Proof.
  intros Ha Hfree.
  assert (Htok : idToken_of ("Bearer " ++ a ++ "Bearer " ++ b) = Some a).
  { unfold idToken_of, split.
    rewrite (split_go_at_sep "B" "earer " "" (a ++ "Bearer " ++ b)).
    now rewrite (split_go_first_sep a b "" Hfree). }
  split; [exact Htok|].
  exact (proj2 (verifyAuth_submits W req st _ a Ha
                  (prefix_self_app "Bearer " _) Htok)).
Qed.

Lemma bearer_token_truncated_witness :
  idToken_of ("Bearer " ++ "abc " ++ "Bearer " ++ "xyz") = Some "abc " /\
  exists rest,
    trace (snd (verifyAuth happy_world
                  (mkRequest "POST" (Some "Bearer abc Bearer xyz") no_body)
                  (mkSt fresh_res [])))
    = ([] ++ CallVerifyIdToken (Some "abc ") :: rest)%list.
Proof.
  apply (bearer_token_truncated happy_world
           (mkRequest "POST" (Some "Bearer abc Bearer xyz") no_body)
           (mkSt fresh_res []) "abc " "xyz");
    reflexivity.
Defined.

(** ** The branches of the label analysis *)

Lemma not_present_cases (v : option string) :
  ~ present v -> v = None \/ v = Some "".
Proof.
  destruct v as [[|c s]|]; intros H; [now right | | now left].
  exfalso. apply H. now exists c, s.
Qed.

(** X5: when [verifyAuth] lets a POST to [analyzeWineLabel] through and
    the configuration has no model key, or an empty one, the answer is 500
    [{error: "OpenAI API not configured"}]; the run calls nothing but the
    token verification, whatever the body. *)
Theorem openai_not_configured (W : World) (config : FunctionsConfig)
  (req : Request) (p : DecodedIdToken) :
  method req = "POST" -> accepts W req p ->
  ~ openai_key_set config ->
  response (analyzeWineLabel W config req)
  = mkRes 500 cors_headers [SentJson (JObj [("error", JStr "OpenAI API not configured")])] /\
  exists h, authorization req = Some h /\
            calls (analyzeWineLabel W config req) = [CallVerifyIdToken (idToken_of h)].
Proof.
  intros Hm Hp Hk. rewrite <- getOpenAIKey_set in Hk.
  destruct (verifyAuth_accepted W req (mkSt (mkRes 200 cors_headers []) []) p Hp)
    as (h & Ha & Hv).
  assert (Hrun : run (analyzeWineLabel W config req)
                 = mkSt (mkRes 500 cors_headers
                           [SentJson (JObj [("error", JStr "OpenAI API not configured")])])
                        [CallVerifyIdToken (idToken_of h)]).
  { unfold run. enter_post Hm. rewrite Hv. cbn [fst snd].
    destruct (not_present_cases _ Hk) as [-> | ->]; reflexivity. }
  unfold response, calls. rewrite Hrun. split; [reflexivity|].
  exists h. split; [exact Ha | reflexivity].
Qed.

Lemma openai_not_configured_witness :
  response (analyzeWineLabel happy_world search_only_config (post_as_alice label_body))
  = mkRes 500 cors_headers [SentJson (JObj [("error", JStr "OpenAI API not configured")])] /\
  exists h, authorization (post_as_alice label_body) = Some h /\
            calls (analyzeWineLabel happy_world search_only_config
                     (post_as_alice label_body))
            = [CallVerifyIdToken (idToken_of h)].
Proof.
  apply (openai_not_configured happy_world search_only_config
           (post_as_alice label_body) (mkDecodedIdToken "alice")).
  - reflexivity.
  - exists "Bearer token-of-alice". repeat split.
  - intros (section & H & _). discriminate H.
Defined.

(** X6: with the token accepted and a non-empty model key in the
    configuration, a body whose [imageBase64] is missing or falsy (the
    empty text, [null], [false], [0]) is answered 400
    [{error: "No image provided"}], and the model is not called. *)
Theorem no_image_provided (W : World) (config : FunctionsConfig)
  (req : Request) (p : DecodedIdToken) :
  method req = "POST" -> accepts W req p ->
  openai_key_set config ->
  imageBase64 (body req) = None \/
  In (imageBase64 (body req))
     [Some (JStr ""); Some JNull; Some (JBool false); Some (JNum "0"); Some (JNum "NaN")] ->
  response (analyzeWineLabel W config req)
  = mkRes 400 cors_headers [SentJson (JObj [("error", JStr "No image provided")])] /\
  exists h, authorization req = Some h /\
            calls (analyzeWineLabel W config req) = [CallVerifyIdToken (idToken_of h)].
Proof.
  intros Hm Hp Hk Hi. rewrite <- getOpenAIKey_set in Hk. destruct Hk as (kc & k & Hk).
  destruct (verifyAuth_accepted W req (mkSt (mkRes 200 cors_headers []) []) p Hp)
    as (h & Ha & Hv).
  assert (Hrun : run (analyzeWineLabel W config req)
                 = mkSt (mkRes 400 cors_headers
                           [SentJson (JObj [("error", JStr "No image provided")])])
                        [CallVerifyIdToken (idToken_of h)]).
  { unfold run. enter_post Hm. rewrite Hv. cbn [fst snd]. rewrite Hk.
    destruct Hi as [Hi|Hi]; [now rewrite Hi|].
    cbn [In] in Hi.
    repeat (destruct Hi as [Hi|Hi]; [now rewrite <- Hi|]). destruct Hi. }
  unfold response, calls. rewrite Hrun. split; [reflexivity|].
  exists h. split; [exact Ha | reflexivity].
Qed.

Lemma no_image_provided_witness :
  (response (analyzeWineLabel happy_world sample_config (post_as_alice no_body))
   = mkRes 400 cors_headers [SentJson (JObj [("error", JStr "No image provided")])] /\
   exists h, authorization (post_as_alice no_body) = Some h /\
             calls (analyzeWineLabel happy_world sample_config (post_as_alice no_body))
             = [CallVerifyIdToken (idToken_of h)]) /\
  response (analyzeWineLabel happy_world sample_config
              (post_as_alice (mkBody (Some (JNum "0")) None None)))
  = mkRes 400 cors_headers [SentJson (JObj [("error", JStr "No image provided")])].
Proof.
  split.
  - apply (no_image_provided happy_world sample_config (post_as_alice no_body)
             (mkDecodedIdToken "alice")).
    + reflexivity.
    + exists "Bearer token-of-alice". repeat split.
    + eexists; split; [reflexivity|]. now exists "s"%char, "k-cork-4711".
    + left. reflexivity.
  - apply (no_image_provided happy_world sample_config
             (post_as_alice (mkBody (Some (JNum "0")) None None))
             (mkDecodedIdToken "alice")).
    + reflexivity.
    + exists "Bearer token-of-alice". repeat split.
    + eexists; split; [reflexivity|]. now exists "s"%char, "k-cork-4711".
    + right. cbn [In]. tauto.
Defined.

(** The run of [analyzeWineLabel] up to the model's answer. *)
Lemma analyze_after_create (W : World) (config : FunctionsConfig) (req : Request)
  (k img : string) (reply : Error + option string) :
  model_replies W config req k img reply ->
  exists h, authorization req = Some h /\
  run (analyzeWineLabel W config req)
  = snd (match reply with
         | inr content =>
             bind (parseWineData W content) (fun parsed =>
               match parsed with
               | inr wineData =>
                   res_json (JObj [("success", JBool true); ("data", wineData)])
               | inl parseError =>
                   bind (console_error "JSON parse error:" parseError) (fun _ =>
                   bind (res_status 500) (fun _ =>
                   res_json (JObj [("error", JStr "Failed to parse wine data");
                                   ("raw", raw_of content)])))
               end)
         | inl error =>
             bind (console_error "OpenAI error:" error) (fun _ =>
             bind (res_status 500) (fun _ =>
             res_json (JObj [("error", JStr "Failed to analyze image");
                             ("message", JStr (message error))])))
         end (mkSt (mkRes 200 cors_headers [])
                   [CallVerifyIdToken (idToken_of h); CallOpenAI k (chatRequest img)])).
Proof.
  intros (Hm & (p & Hp) & Hk & Hk' & Hi & Hi' & Hc).
  destruct (verifyAuth_accepted W req (mkSt (mkRes 200 cors_headers []) []) p Hp)
    as (h & Ha & Hv).
  exists h. split; [exact Ha|].
  unfold run. enter_post Hm. rewrite Hv. cbn [fst snd]. rewrite Hk.
  destruct k as [|kc k]; [congruence|]. rewrite Hi.
  destruct img as [|ic img]; [congruence|].
  cbv zeta. cbn [ToBoolean startsWith_receiver].
  unfold await_create, record, ret. rewrite !bind_apply.
  cbn [fst snd res trace app]. rewrite Hc. reflexivity.
Qed.

(** X7: when the model call fails, the failure is logged and answered 500
    [Failed to analyze image] with the message of the failure; the reply
    is not parsed and nothing else is called. *)
Theorem model_failure (W : World) (config : FunctionsConfig) (req : Request)
  (k img : string) (e : Error) :
  model_replies W config req k img (inl e) ->
  response (analyzeWineLabel W config req)
  = mkRes 500 cors_headers
      [SentJson (JObj [("error", JStr "Failed to analyze image");
                       ("message", JStr (message e))])] /\
  exists h, authorization req = Some h /\
            calls (analyzeWineLabel W config req)
            = [CallVerifyIdToken (idToken_of h); CallOpenAI k (chatRequest img);
               CallConsoleError "OpenAI error:" e].
Proof.
  intros H. destruct (analyze_after_create _ _ _ _ _ _ H) as (h & Ha & Hrun).
  unfold response, calls. rewrite Hrun. split; [reflexivity|].
  exists h. split; [exact Ha | reflexivity].
Qed.

Lemma model_failure_witness :
  response (analyzeWineLabel failing_world sample_config (post_as_alice label_body))
  = mkRes 500 cors_headers
      [SentJson (JObj [("error", JStr "Failed to analyze image");
                       ("message", JStr (message quota_error))])] /\
  exists h, authorization (post_as_alice label_body) = Some h /\
            calls (analyzeWineLabel failing_world sample_config
                     (post_as_alice label_body))
            = [CallVerifyIdToken (idToken_of h);
               CallOpenAI "sk-cork-4711" (chatRequest "aGVsbG8=");
               CallConsoleError "OpenAI error:" quota_error].
Proof.
  apply (model_failure failing_world sample_config (post_as_alice label_body)
           "sk-cork-4711" "aGVsbG8=" quota_error (sample_model_replies _ _)).
Defined.

(** X8: when the model answers with a [null] content, the [match] call
    throws inside the inner [try]: the error is logged and the answer is
    500 [Failed to parse wine data] with [raw: null]; [JSON.parse] is not
    called. *)
Theorem null_content_reply (W : World) (config : FunctionsConfig) (req : Request)
  (k img : string) :
  model_replies W config req k img (inr None) ->
  response (analyzeWineLabel W config req)
  = mkRes 500 cors_headers
      [SentJson (JObj [("error", JStr "Failed to parse wine data"); ("raw", JNull)])] /\
  exists h e,
    authorization req = Some h /\
    calls (analyzeWineLabel W config req)
    = [CallVerifyIdToken (idToken_of h); CallOpenAI k (chatRequest img);
       CallConsoleError "JSON parse error:" e].
Proof.
  intros H. destruct (analyze_after_create _ _ _ _ _ _ H) as (h & Ha & Hrun).
  unfold response, calls. rewrite Hrun. split; [reflexivity|].
  exists h, null_match_error. split; [exact Ha | reflexivity].
Qed.

Lemma null_content_reply_witness :
  response (analyzeWineLabel (sample_world (inr None) (inr one_image))
              sample_config (post_as_alice label_body))
  = mkRes 500 cors_headers
      [SentJson (JObj [("error", JStr "Failed to parse wine data"); ("raw", JNull)])].
Proof.
  apply (null_content_reply (sample_world (inr None) (inr one_image))
           sample_config (post_as_alice label_body) "sk-cork-4711" "aGVsbG8="
           (sample_model_replies _ _)).
Defined.

(** X9: the whole reply is parsed only when the pattern has no match, not
    when the parse of the match fails: a reply whose match does not parse
    is answered 500 even if the reply as a whole is valid JSON, and
    [JSON.parse] is called once, on the match. *)
Theorem failed_match_is_final (W : World) (config : FunctionsConfig) (req : Request)
  (k img content m : string) (e : Error) :
  model_replies W config req k img (inr (Some content)) ->
  regex_match content = Some m ->
  JSON_parse W m = inl e ->
  response (analyzeWineLabel W config req) = parse_failure content /\
  (forall t, In (CallJSONParse t) (calls (analyzeWineLabel W config req)) -> t = m) /\
  In (CallConsoleError "JSON parse error:" e) (calls (analyzeWineLabel W config req)).
Proof.
  intros H Hm He. destruct (analyze_reply _ _ _ _ _ _ H) as (h & _ & Hrun).
  cbv zeta in Hrun. unfold parse_target in Hrun. rewrite Hm, He in Hrun.
  destruct Hrun as [Hr Hc]. rewrite Hr, Hc. split; [reflexivity|]. split.
  - intros t [Ht|[Ht|[Ht|[Ht|[]]]]]; congruence.
  - simpl. tauto.
Qed.

Lemma failed_match_is_final_witness :
  JSON_parse (sample_world (inr (Some string_reply)) (inr one_image)) string_reply
  = inr (JStr "see {b} there") /\
  response (analyzeWineLabel (sample_world (inr (Some string_reply)) (inr one_image))
              sample_config (post_as_alice label_body))
  = parse_failure string_reply.
Proof.
  split; [vm_compute; reflexivity|].
  refine (proj1 (failed_match_is_final
                   (sample_world (inr (Some string_reply)) (inr one_image))
                   sample_config (post_as_alice label_body) "sk-cork-4711" "aGVsbG8="
                   string_reply "{b}" (mkError "Unexpected token in JSON")
                   (sample_model_replies _ _) _ _));
    vm_compute; reflexivity.
Defined.

(** X29: with the token accepted and the model key set, an [imageBase64]
    that is truthy but not a text (a number, [true], an array, an object)
    has no [startsWith]: the call throws, the error is logged under
    [OpenAI error:] and the answer is 500
    [{error: "Failed to analyze image",
      message: "imageBase64.startsWith is not a function"}]; the model is
    not called. *)
Theorem image_not_a_text (W : World) (config : FunctionsConfig)
  (req : Request) (p : DecodedIdToken) (v : JSON) :
  method req = "POST" -> accepts W req p ->
  openai_key_set config ->
  imageBase64 (body req) = Some v -> ToBoolean v = true ->
  (forall s, v <> JStr s) ->
  response (analyzeWineLabel W config req)
  = mkRes 500 cors_headers
      [SentJson (JObj [("error", JStr "Failed to analyze image");
                       ("message", JStr "imageBase64.startsWith is not a function")])] /\
  exists h, authorization req = Some h /\
            calls (analyzeWineLabel W config req)
            = [CallVerifyIdToken (idToken_of h);
               CallConsoleError "OpenAI error:"
                 (mkError "imageBase64.startsWith is not a function")].
Proof.
  intros Hm Hp Hk Hi Ht Hns. rewrite <- getOpenAIKey_set in Hk.
  destruct Hk as (kc & k & Hk).
  destruct (verifyAuth_accepted W req (mkSt (mkRes 200 cors_headers []) []) p Hp)
    as (h & Ha & Hv).
  assert (Hrun : run (analyzeWineLabel W config req)
                 = mkSt (mkRes 500 cors_headers
                           [SentJson
                              (JObj [("error", JStr "Failed to analyze image");
                                     ("message",
                                      JStr "imageBase64.startsWith is not a function")])])
                        [CallVerifyIdToken (idToken_of h);
                         CallConsoleError "OpenAI error:"
                           (mkError "imageBase64.startsWith is not a function")]).
  { unfold run. enter_post Hm. rewrite Hv. cbn [fst snd]. rewrite Hk, Hi.
    cbv zeta. rewrite Ht.
    destruct v as [|b|r|s|l|l]; try reflexivity.
    exfalso. exact (Hns s eq_refl). }
  unfold response, calls. rewrite Hrun. split; [reflexivity|].
  exists h. split; [exact Ha | reflexivity].
Qed.

Lemma image_not_a_text_witness :
  response (analyzeWineLabel happy_world sample_config
              (post_as_alice (mkBody (Some (JNum "12345")) None None)))
  = mkRes 500 cors_headers
      [SentJson (JObj [("error", JStr "Failed to analyze image");
                       ("message", JStr "imageBase64.startsWith is not a function")])] /\
  exists h, authorization (post_as_alice (mkBody (Some (JNum "12345")) None None)) = Some h /\
            calls (analyzeWineLabel happy_world sample_config
                     (post_as_alice (mkBody (Some (JNum "12345")) None None)))
            = [CallVerifyIdToken (idToken_of h);
               CallConsoleError "OpenAI error:"
                 (mkError "imageBase64.startsWith is not a function")].
Proof.
  apply (image_not_a_text happy_world sample_config
           (post_as_alice (mkBody (Some (JNum "12345")) None None))
           (mkDecodedIdToken "alice") (JNum "12345")).
  - reflexivity.
  - exists "Bearer token-of-alice". repeat split.
  - eexists; split; [reflexivity|]. now exists "s"%char, "k-cork-4711".
  - reflexivity.
  - reflexivity.
  - discriminate.
Defined.

(** ** What holds on every branch *)

Lemma post_intro (req : Request) :
  negb (method req =? "POST")%string = false -> method req = "POST".
Proof.
  intros H. apply negb_false_iff in H. now apply String.eqb_eq.
Qed.

Lemma accepts_intro (W : World) (req : Request) (h : string) (p : DecodedIdToken) :
  authorization req = Some h ->
  negb (truthy (Some h)) || negb (startsWith h "Bearer ") = false ->
  verifyIdToken W (nth_error (split h "Bearer ") 1) = inr p ->
  accepts W req p.
Proof.
  intros Ha Hb Hv. apply orb_false_iff in Hb as [_ Hb].
  apply negb_false_iff in Hb. exists h. repeat split; assumption.
Qed.

Ltac pick_call :=
  repeat match goal with
         | H : In _ (_ :: _) |- _ => destruct H as [H|H]
         | H : In _ [] |- _ => destruct H
         | H : @eq Call _ ?c |- _ =>
             first [ discriminate H
                   | is_var c; subst c
                   | injection H as <- <-
                   | injection H as <- ]
         end.

(** X16: no run makes more than one call to a paid upstream API. *)
Theorem at_most_one_upstream_call (W : World) (config : FunctionsConfig)
  (ep : Endpoint) (req : Request) :
  (upstream_count (calls (handler W config ep req)) <= 1)%nat.
Proof.
  destruct ep; [| |cbn; lia].
  - analyze_cases W config req
      ltac:(run_leaf; unfold upstream_count; cbn [filter is_upstream List.length]; lia).
  - search_cases W config req
      ltac:(run_leaf; unfold upstream_count; cbn [filter is_upstream List.length]; lia).
Qed.

(** The gates passed on the way to a call. *)
Ltac token_accepted :=
  split; [reflexivity|]; split; [now apply post_intro|];
  split; [eexists; eapply accepts_intro; eassumption|];
  eexists; split; reflexivity.

(** X17: a paid upstream API is called only for a POST whose bearer token
    the identity service has accepted, and the verification is the first
    call of such a run. *)
Theorem upstream_call_needs_token (W : World) (config : FunctionsConfig)
  (ep : Endpoint) (req : Request) (call : Call) :
  In call (calls (handler W config ep req)) -> is_upstream call = true ->
  protected ep = true /\ method req = "POST" /\
  (exists p, accepts W req p) /\
  exists h, authorization req = Some h /\
            hd_error (calls (handler W config ep req))
            = Some (CallVerifyIdToken (idToken_of h)).
Proof.
  destruct ep; [| |intros []].
  - analyze_cases W config req
      ltac:(run_leaf; intros Hin Hup; pick_call; try discriminate Hup;
            token_accepted).
  - search_cases W config req
      ltac:(run_leaf; intros Hin Hup; pick_call; try discriminate Hup;
            token_accepted).
Qed.

Lemma upstream_call_needs_token_witness :
  protected SearchWineImage = true /\
  method (post_as_alice (search_body None)) = "POST" /\
  (exists p, accepts happy_world (post_as_alice (search_body None)) p) /\
  exists h, authorization (post_as_alice (search_body None)) = Some h /\
            hd_error (calls (handler happy_world sample_config SearchWineImage
                               (post_as_alice (search_body None))))
            = Some (CallVerifyIdToken (idToken_of h)).
Proof.
  apply (upstream_call_needs_token happy_world sample_config SearchWineImage
           (post_as_alice (search_body None))
           (CallFetch (sample_url "wine"))).
  - right. left. reflexivity.
  - reflexivity.
Defined.

Lemma dataUri_is_data (image : string) : startsWith (dataUri image) "data:" = true.
Proof.
  unfold dataUri. destruct (startsWith image "data:") eqn:E; [exact E | reflexivity].
Qed.

Lemma startsWith_receiver_text (v : JSON) (s : string) :
  startsWith_receiver v = inr s -> v = JStr s.
Proof.
  destruct v; intros H; try discriminate H. now injection H as <-.
Qed.

Ltac model_request :=
  match goal with
  | H : startsWith_receiver ?v = inr _ |- _ =>
      apply startsWith_receiver_text in H; subst v
  end;
  split; [reflexivity|]; split; [reflexivity|];
  eexists; split; [reflexivity|];
  split; [intros ->; match goal with H : ToBoolean _ = true |- _ => discriminate H end|];
  split; [reflexivity|]; split; [apply dataUri_is_data|];
  cbn [image_url chatRequest]; unfold dataUri;
  split; intros Hd; rewrite Hd; reflexivity.

(** X10: every call to the model, on any request, is made by
    [analyzeWineLabel] with the configured key, the model [gpt-4o], the
    fixed prompt, a cap of 1000 tokens and the image of the body as a data
    URI: an image that already is one goes out unchanged, any other is
    prefixed. *)
Theorem model_call_shape (W : World) (config : FunctionsConfig)
  (ep : Endpoint) (req : Request) (apiKey : string) (r : ChatRequest) :
  In (CallOpenAI apiKey r) (calls (handler W config ep req)) ->
  ep = AnalyzeWineLabel /\
  getOpenAIKey config = Some apiKey /\
  exists image,
    imageBase64 (body req) = Some (JStr image) /\ image <> "" /\
    r = mkChatRequest "gpt-4o" PROMPT (image_url r) 1000 /\
    startsWith (image_url r) "data:" = true /\
    (startsWith image "data:" = true -> image_url r = image) /\
    (startsWith image "data:" = false ->
     image_url r = "data:image/jpeg;base64," ++ image).
Proof.
  destruct ep; [| |intros []].
  - analyze_cases W config req
      ltac:(run_leaf; intros Hin; pick_call; model_request).
  - search_cases W config req ltac:(run_leaf; intros Hin; pick_call).
Qed.

Lemma model_call_shape_witness :
  AnalyzeWineLabel = AnalyzeWineLabel /\
  getOpenAIKey sample_config = Some "sk-cork-4711" /\
  exists image,
    imageBase64 (body (post_as_alice label_body)) = Some (JStr image) /\
    image <> "" /\
    chatRequest "aGVsbG8="
    = mkChatRequest "gpt-4o" PROMPT (image_url (chatRequest "aGVsbG8=")) 1000 /\
    startsWith (image_url (chatRequest "aGVsbG8=")) "data:" = true /\
    (startsWith image "data:" = true -> image_url (chatRequest "aGVsbG8=") = image) /\
    (startsWith image "data:" = false ->
     image_url (chatRequest "aGVsbG8=") = "data:image/jpeg;base64," ++ image).
Proof.
  apply (model_call_shape happy_world sample_config AnalyzeWineLabel
           (post_as_alice label_body) "sk-cork-4711" (chatRequest "aGVsbG8=")).
  right. left. reflexivity.
Defined.

Lemma searchUrl_address (googleApiKey googleCx sq url : string) :
  searchUrl googleApiKey googleCx sq = inr url ->
  exists encoded,
    encodeURIComponent sq = inr encoded /\
    url = "https://www.googleapis.com/customsearch/v1?key=" ++ googleApiKey ++
          "&cx=" ++ googleCx ++ "&q=" ++ encoded ++
          "&searchType=image&num=1&imgType=photo".
Proof.
  unfold searchUrl. destruct (encodeURIComponent sq) as [e|encoded]; intros H.
  - discriminate H.
  - injection H as <-. now exists encoded.
Qed.

Ltac search_request :=
  match goal with
  | H : searchUrl _ _ _ = inr _ |- _ =>
      destruct (searchUrl_address _ _ _ _ H) as (encodedText & Hencoded & ->)
  end;
  split; [reflexivity|]; eexists _, _, _, _, _;
  split; [reflexivity|]; split; [reflexivity|];
  split; [reflexivity|]; split; [assumption|];
  split; [eassumption|]; split; [eassumption|]; split; [reflexivity|];
  apply (prefix_self_app "https://www.googleapis.com/customsearch/v1?key=").

(** X14: every search request, on any request, is made by
    [searchWineImage] to the custom-search address of the provider, with
    the two configured credentials and, percent-encoded, the search text
    composed from the body.  The query of the body is any truthy value, a
    text or not, and the search text is what [searchQuery] renders from it
    and the type; the caller chooses neither the host nor the other
    parameters. *)
Theorem fetch_call_shape (W : World) (config : FunctionsConfig)
  (ep : Endpoint) (req : Request) (url : string) :
  In (CallFetch url) (calls (handler W config ep req)) ->
  ep = SearchWineImage /\
  exists googleApiKey googleCx queryValue text encoded,
    getGoogleApiKey config = Some googleApiKey /\
    getGoogleCx config = Some googleCx /\
    query (body req) = Some queryValue /\ ToBoolean queryValue = true /\
    searchQuery queryValue (type (body req)) = inr text /\
    encodeURIComponent text = inr encoded /\
    url = "https://www.googleapis.com/customsearch/v1?key=" ++ googleApiKey ++
          "&cx=" ++ googleCx ++ "&q=" ++ encoded ++
          "&searchType=image&num=1&imgType=photo" /\
    startsWith url "https://www.googleapis.com/customsearch/v1?key=" = true.
Proof.
  destruct ep; [| |intros []].
  - analyze_cases W config req ltac:(run_leaf; intros Hin; pick_call).
  - search_cases W config req
      ltac:(run_leaf; intros Hin; pick_call; search_request).
Qed.

Lemma fetch_call_shape_witness :
  SearchWineImage = SearchWineImage /\
  exists googleApiKey googleCx queryValue text encoded,
    getGoogleApiKey sample_config = Some googleApiKey /\
    getGoogleCx sample_config = Some googleCx /\
    query (body (post_as_alice (mkBody None (Some (JArr []))
                                  (Some (JArr [JStr "sparkling"])))))
    = Some queryValue /\
    ToBoolean queryValue = true /\
    searchQuery queryValue
      (type (body (post_as_alice (mkBody None (Some (JArr []))
                                    (Some (JArr [JStr "sparkling"]))))))
    = inr text /\
    encodeURIComponent text = inr encoded /\
    ("https://www.googleapis.com/customsearch/v1?key=AIza-cork-0815&cx=cx-cork" ++
     "&q=%20sparkling%20wine%20bottle&searchType=image&num=1&imgType=photo")
    = "https://www.googleapis.com/customsearch/v1?key=" ++ googleApiKey ++
      "&cx=" ++ googleCx ++ "&q=" ++ encoded ++
      "&searchType=image&num=1&imgType=photo" /\
    startsWith
      ("https://www.googleapis.com/customsearch/v1?key=AIza-cork-0815&cx=cx-cork" ++
       "&q=%20sparkling%20wine%20bottle&searchType=image&num=1&imgType=photo")
      "https://www.googleapis.com/customsearch/v1?key=" = true.
Proof.
  apply (fetch_call_shape happy_world sample_config SearchWineImage
           (post_as_alice (mkBody None (Some (JArr []))
                             (Some (JArr [JStr "sparkling"]))))).
  right. left. reflexivity.
Defined.

(** X18: every answer of the two protected functions carries the three
    CORS headers, whatever the method, the authentication and the outcome;
    every answer of [health] carries the allow-origin header alone. *)
Theorem headers_on_every_answer (W : World) (config : FunctionsConfig)
  (ep : Endpoint) (req : Request) :
  headers (response (handler W config ep req))
  = (if protected ep then cors_headers
     else [("Access-Control-Allow-Origin", "*")]).
Proof.
  destruct ep; [| |reflexivity].
  - analyze_cases W config req ltac:(run_leaf; reflexivity).
  - search_cases W config req ltac:(run_leaf; reflexivity).
Qed.

(** X20: the status of an answer is one of 200, 204, 400, 401, 405 and
    500, and [health] always answers 200. *)
Theorem status_codes (W : World) (config : FunctionsConfig)
  (ep : Endpoint) (req : Request) :
  In (statusCode (response (handler W config ep req))) [200; 204; 400; 401; 405; 500] /\
  (ep = Health -> statusCode (response (handler W config ep req)) = 200).
Proof.
  destruct ep; [| |split; [now left | reflexivity]].
  - analyze_cases W config req
      ltac:(run_leaf; (split; [simpl; tauto | discriminate])).
  - search_cases W config req
      ltac:(run_leaf; (split; [simpl; tauto | discriminate])).
Qed.

(** X21: a protected function answers 200 only to a POST whose bearer
    token the identity service has accepted. *)
Theorem success_needs_token (W : World) (config : FunctionsConfig)
  (ep : Endpoint) (req : Request) :
  protected ep = true ->
  statusCode (response (handler W config ep req)) = 200 ->
  method req = "POST" /\ exists p, accepts W req p.
Proof.
  destruct ep; [| |discriminate].
  - analyze_cases W config req
      ltac:(run_leaf; intros _ Hs; try discriminate Hs;
            (split; [now apply post_intro|];
             eexists; eapply accepts_intro; eassumption)).
  - search_cases W config req
      ltac:(run_leaf; intros _ Hs; try discriminate Hs;
            (split; [now apply post_intro|];
             eexists; eapply accepts_intro; eassumption)).
Qed.

Lemma success_needs_token_witness :
  method (post_as_alice (search_body None)) = "POST" /\
  exists p, accepts happy_world (post_as_alice (search_body None)) p.
Proof.
  apply (success_needs_token happy_world sample_config SearchWineImage
           (post_as_alice (search_body None)));
    reflexivity.
Defined.

(** X26: a run writes at most one entry to the error log, and a run that
    writes one answers 401 or 500. *)
Theorem logged_runs_fail (W : World) (config : FunctionsConfig)
  (ep : Endpoint) (req : Request) :
  (List.length (filter is_log (calls (handler W config ep req))) <= 1)%nat /\
  forall label e,
    In (CallConsoleError label e) (calls (handler W config ep req)) ->
    statusCode (response (handler W config ep req)) = 401 \/
    statusCode (response (handler W config ep req)) = 500.
Proof.
  destruct ep; [| |split; [cbn; lia | intros ? ? []]].
  - analyze_cases W config req
      ltac:(run_leaf;
            (split;
             [cbn [filter is_log List.length]; lia
             |intros label err Hin; pick_call; simpl; tauto])).
  - search_cases W config req
      ltac:(run_leaf;
            (split;
             [cbn [filter is_log List.length]; lia
             |intros label err Hin; pick_call; simpl; tauto])).
Qed.

(** ** The branches of the image search *)

(** The run of [searchWineImage] up to the provider's answer. *)
Lemma search_after_fetch (W : World) (config : FunctionsConfig) (req : Request)
  (url : string) (found : Error + SearchData) :
  search_replies W config req url found ->
  exists h, authorization req = Some h /\
  run (searchWineImage W config req)
  = snd (match found with
         | inr data =>
             match items data with
             | Some (item0 :: _) =>
                 res_json (JObj [("success", JBool true);
                                 ("imageUrl", JStr (link item0))])
             | _ =>
                 res_json (JObj [("success", JBool true); ("imageUrl", JNull);
                                 ("message", JStr "No images found")])
             end
         | inl error =>
             bind (console_error "Google search error:" error) (fun _ =>
             bind (res_status 500) (fun _ =>
             res_json (JObj [("error", JStr "Failed to search images");
                             ("message", JStr (message error))])))
         end (mkSt (mkRes 200 cors_headers [])
                   [CallVerifyIdToken (idToken_of h); CallFetch url])).
Proof.
  intros (Hm & (p & Hp) & k & c & q & sq &
          Hk & Hk' & Hc & Hc' & Hq & Hq' & Hsq & Hurl & Hf).
  destruct (search_after_compose W config req p k c q Hm Hp Hk Hk' Hc Hc' Hq Hq')
    as (h & Ha & Hrun).
  exists h. split; [exact Ha|].
  cbv zeta in Hrun. unfold composeUrl in Hrun. rewrite Hsq, Hurl in Hrun.
  rewrite Hrun. unfold await_fetch_json, record, ret. rewrite !bind_apply.
  cbn [fst snd res trace app]. rewrite Hf. reflexivity.
Qed.

Lemma sample_search_replies (t : option JSON) (url : string)
  (reply : Error + option string) (found : Error + SearchData) :
  composeUrl "AIza-cork-0815" "cx-cork" (JStr "Chateau X") t = inr url ->
  search_replies (sample_world reply found) sample_config
    (post_as_alice (search_body t)) url found.
Proof.
  intros H. split; [reflexivity|]. split.
  - exists (mkDecodedIdToken "alice"), "Bearer token-of-alice". repeat split.
  - unfold composeUrl in H.
    destruct (searchQuery (JStr "Chateau X") t) as [e|sq] eqn:Hsq; [discriminate H|].
    exists "AIza-cork-0815", "cx-cork", (JStr "Chateau X"), sq.
    repeat split; try discriminate; assumption.
Defined.

(** X11: with the token accepted and both search credentials in the
    configuration, a body whose [query] is missing or falsy (the empty
    text, [null], [false], [0]) is answered 400
    [{error: "No search query provided"}], and the provider is not called.
    Any other query value, a text or not, passes this check. *)
Theorem no_search_query (W : World) (config : FunctionsConfig)
  (req : Request) (p : DecodedIdToken) :
  method req = "POST" -> accepts W req p ->
  search_credentials_set config ->
  (query (body req) = None \/
   In (query (body req))
      [Some (JStr ""); Some JNull; Some (JBool false); Some (JNum "0"); Some (JNum "NaN")] ->
   response (searchWineImage W config req)
   = mkRes 400 cors_headers [SentJson (JObj [("error", JStr "No search query provided")])] /\
   exists h, authorization req = Some h /\
             calls (searchWineImage W config req) = [CallVerifyIdToken (idToken_of h)]) /\
  (forall q, query (body req) = Some q ->
             ~ In q [JStr ""; JNull; JBool false; JNum "0"; JNum "NaN"] ->
             statusCode (response (searchWineImage W config req)) <> 400).
Proof.
  intros Hm Hp Hset. rewrite <- getGoogle_set in Hset.
  destruct Hset as [(kc & k & Hk) (cc & c & Hc)].
  destruct (verifyAuth_accepted W req (mkSt (mkRes 200 cors_headers []) []) p Hp)
    as (h & Ha & Hv).
  split.
  - intros Hq.
    assert (Hrun : run (searchWineImage W config req)
                   = mkSt (mkRes 400 cors_headers
                             [SentJson (JObj [("error", JStr "No search query provided")])])
                          [CallVerifyIdToken (idToken_of h)]).
    { unfold run. enter_post Hm. rewrite Hv. cbn [fst snd]. rewrite Hk, Hc.
      destruct Hq as [Hq|Hq]; [now rewrite Hq|].
      cbn [In] in Hq.
      repeat (destruct Hq as [Hq|Hq]; [now rewrite <- Hq|]). destruct Hq. }
    unfold response, calls. rewrite Hrun. split; [reflexivity|].
    exists h. split; [exact Ha | reflexivity].
  - intros q Hq Hnot.
    assert (Htruthy : ToBoolean q = true).
    { destruct (ToBoolean q) eqn:E; [reflexivity|]. exfalso. apply Hnot.
      cbn [In]. destruct q as [|[]|r|[|qc qs]|l|l]; try discriminate E; auto 10.
      cbn [ToBoolean] in E. apply andb_false_iff in E as [E|E];
        apply negb_false_iff, String.eqb_eq in E; subst r; auto 10. }
    destruct (search_after_compose W config req p _ _ q Hm Hp Hk
                ltac:(discriminate) Hc ltac:(discriminate) Hq Htruthy)
      as (h' & _ & Hrun).
    cbv zeta in Hrun. unfold response. rewrite Hrun.
    destruct (composeUrl _ _ q (type (body req))) as [e|url]; [discriminate|].
    unfold await_fetch_json, record, ret. rewrite !bind_apply.
    cbn [fst snd res trace app].
    destruct (fetch_json W url) as [e|[[[|item0 items0]|]]]; discriminate.
Qed.

Lemma no_search_query_witness :
  (response (searchWineImage happy_world sample_config (post_as_alice label_body))
   = mkRes 400 cors_headers [SentJson (JObj [("error", JStr "No search query provided")])] /\
   exists h, authorization (post_as_alice label_body) = Some h /\
             calls (searchWineImage happy_world sample_config (post_as_alice label_body))
             = [CallVerifyIdToken (idToken_of h)]) /\
  statusCode (response (searchWineImage happy_world sample_config
                          (post_as_alice (mkBody None (Some (JArr [])) None))))
  <> 400.
Proof.
  assert (Hset : search_credentials_set sample_config).
  { eexists; split; [reflexivity|].
    split; [now exists "A"%char, "Iza-cork-0815" | now exists "c"%char, "x-cork"]. }
  assert (Hp : forall b, accepts happy_world (post_as_alice b) (mkDecodedIdToken "alice")).
  { intros b. exists "Bearer token-of-alice". repeat split. }
  split.
  - apply (proj1 (no_search_query happy_world sample_config (post_as_alice label_body)
                    (mkDecodedIdToken "alice") eq_refl (Hp _) Hset)).
    left. reflexivity.
  - apply (proj2 (no_search_query happy_world sample_config
                    (post_as_alice (mkBody None (Some (JArr [])) None))
                    (mkDecodedIdToken "alice") eq_refl (Hp _) Hset) (JArr []) eq_refl).
    cbn [In]. intros H. repeat (destruct H as [H|H]; [discriminate H|]). exact H.
Defined.

(** X12: when the provider answers, the reply is 200 with the link of the
    first item as [imageUrl], whatever follows it; without items, or with
    an empty list, it is 200 with [imageUrl: null] and the message
    [No images found].  Nothing is logged. *)
Theorem search_result (W : World) (config : FunctionsConfig) (req : Request)
  (url : string) (data : SearchData) :
  search_replies W config req url (inr data) ->
  response (searchWineImage W config req)
  = mkRes 200 cors_headers
      [SentJson
         match items data with
         | Some (item0 :: _) =>
             JObj [("success", JBool true); ("imageUrl", JStr (link item0))]
         | _ =>
             JObj [("success", JBool true); ("imageUrl", JNull);
                   ("message", JStr "No images found")]
         end] /\
  exists h, authorization req = Some h /\
            calls (searchWineImage W config req)
            = [CallVerifyIdToken (idToken_of h); CallFetch url].
Proof.
  intros H. destruct (search_after_fetch _ _ _ _ _ H) as (h & Ha & Hrun).
  unfold response, calls. rewrite Hrun.
  split; [|exists h; split; [exact Ha|]];
    destruct (items data) as [[|item0 rest]|]; reflexivity.
Qed.

Lemma search_result_witness :
  response (searchWineImage happy_world sample_config
              (post_as_alice (search_body (Some (JStr "red")))))
  = mkRes 200 cors_headers
      [SentJson (JObj [("success", JBool true);
                       ("imageUrl", JStr "https://img.example/chateau-x.jpg")])] /\
  exists h, authorization (post_as_alice (search_body (Some (JStr "red")))) = Some h /\
            calls (searchWineImage happy_world sample_config
                     (post_as_alice (search_body (Some (JStr "red")))))
            = [CallVerifyIdToken (idToken_of h);
               CallFetch (sample_url "red%20wine")].
Proof.
  apply (search_result happy_world sample_config
           (post_as_alice (search_body (Some (JStr "red"))))
           (sample_url "red%20wine") one_image
           (sample_search_replies (Some (JStr "red")) (sample_url "red%20wine")
              _ _ eq_refl)).
Defined.

(** X13: when the search request fails, the failure is logged and
    answered 500 [Failed to search images] with the message of the
    failure. *)
Theorem search_failure (W : World) (config : FunctionsConfig) (req : Request)
  (url : string) (e : Error) :
  search_replies W config req url (inl e) ->
  response (searchWineImage W config req)
  = mkRes 500 cors_headers
      [SentJson (JObj [("error", JStr "Failed to search images");
                       ("message", JStr (message e))])] /\
  exists h, authorization req = Some h /\
            calls (searchWineImage W config req)
            = [CallVerifyIdToken (idToken_of h); CallFetch url;
               CallConsoleError "Google search error:" e].
Proof.
  intros H. destruct (search_after_fetch _ _ _ _ _ H) as (h & Ha & Hrun).
  unfold response, calls. rewrite Hrun. split; [reflexivity|].
  exists h. split; [exact Ha | reflexivity].
Qed.

Lemma search_failure_witness :
  response (searchWineImage failing_world sample_config
              (post_as_alice (search_body None)))
  = mkRes 500 cors_headers
      [SentJson (JObj [("error", JStr "Failed to search images");
                       ("message", JStr "fetch failed")])] /\
  exists h, authorization (post_as_alice (search_body None)) = Some h /\
            calls (searchWineImage failing_world sample_config
                     (post_as_alice (search_body None)))
            = [CallVerifyIdToken (idToken_of h); CallFetch (sample_url "wine");
               CallConsoleError "Google search error:" fetch_error].
Proof.
  apply (search_failure failing_world sample_config
           (post_as_alice (search_body None))
           (sample_url "wine") fetch_error
           (sample_search_replies None (sample_url "wine") _ _ eq_refl)).
Defined.

(** X30: with the token accepted, both search credentials set and a
    truthy query, a search text that cannot be composed is answered 500
    [Failed to search images] without any search request, and the error is
    logged under [Google search error:].  When the query or the type
    cannot be rendered as text the message is
    [Cannot convert object to primitive value]; when the rendered search
    text holds a lone surrogate it is [URI malformed]. *)
Theorem search_text_not_composed (W : World) (config : FunctionsConfig)
  (req : Request) (p : DecodedIdToken) (q : JSON) :
  method req = "POST" -> accepts W req p ->
  search_credentials_set config ->
  query (body req) = Some q -> ToBoolean q = true ->
  exists h,
    authorization req = Some h /\
    (forall e, searchQuery q (type (body req)) = inl e ->
       response (searchWineImage W config req)
       = mkRes 500 cors_headers
           [SentJson (JObj [("error", JStr "Failed to search images");
                            ("message",
                             JStr "Cannot convert object to primitive value")])] /\
       calls (searchWineImage W config req)
       = [CallVerifyIdToken (idToken_of h);
          CallConsoleError "Google search error:"
            (mkError "Cannot convert object to primitive value")]) /\
    (forall text, searchQuery q (type (body req)) = inr text ->
       has_lone_surrogate text = true ->
       response (searchWineImage W config req)
       = mkRes 500 cors_headers
           [SentJson (JObj [("error", JStr "Failed to search images");
                            ("message", JStr "URI malformed")])] /\
       calls (searchWineImage W config req)
       = [CallVerifyIdToken (idToken_of h);
          CallConsoleError "Google search error:" (mkError "URI malformed")]).
Proof.
  intros Hm Hp Hset Hq Ht. rewrite <- getGoogle_set in Hset.
  destruct Hset as [(kc & k & Hk) (cc & c & Hc)].
  destruct (search_after_compose W config req p _ _ q Hm Hp Hk
              ltac:(discriminate) Hc ltac:(discriminate) Hq Ht)
    as (h & Ha & Hrun).
  exists h. split; [exact Ha|]. cbv zeta in Hrun.
  unfold response, calls. rewrite Hrun. unfold composeUrl. split.
  - intros e He. rewrite He.
    pose proof (searchQuery_error _ _ _ He). subst e. split; reflexivity.
  - intros text Htext Hsur. rewrite Htext.
    unfold searchUrl, encodeURIComponent. rewrite Hsur. split; reflexivity.
Qed.

Lemma search_text_not_composed_witness :
  response (searchWineImage happy_world sample_config
              (post_as_alice (mkBody None (Some (JStr "Chateau X")) (Some unprintable))))
  = mkRes 500 cors_headers
      [SentJson (JObj [("error", JStr "Failed to search images");
                       ("message", JStr "Cannot convert object to primitive value")])] /\
  calls (searchWineImage happy_world sample_config
           (post_as_alice (mkBody None (Some (JStr lone_surrogate)) None)))
  = [CallVerifyIdToken (Some "token-of-alice");
     CallConsoleError "Google search error:" (mkError "URI malformed")].
Proof.
  assert (Hset : search_credentials_set sample_config).
  { eexists; split; [reflexivity|].
    split; [now exists "A"%char, "Iza-cork-0815" | now exists "c"%char, "x-cork"]. }
  assert (Hp : forall b, accepts happy_world (post_as_alice b) (mkDecodedIdToken "alice")).
  { intros b. exists "Bearer token-of-alice". repeat split. }
  split.
  - destruct (search_text_not_composed happy_world sample_config
                (post_as_alice (mkBody None (Some (JStr "Chateau X")) (Some unprintable)))
                (mkDecodedIdToken "alice") (JStr "Chateau X")
                eq_refl (Hp _) Hset eq_refl eq_refl) as (h & Ha & Hthrow & _).
    exact (proj1 (Hthrow primitive_error eq_refl)).
  - destruct (search_text_not_composed happy_world sample_config
                (post_as_alice (mkBody None (Some (JStr lone_surrogate)) None))
                (mkDecodedIdToken "alice") (JStr lone_surrogate)
                eq_refl (Hp _) Hset eq_refl eq_refl) as (h & Ha & _ & Hsur).
    injection Ha as <-.
    exact (proj2 (Hsur _ eq_refl eq_refl)).
Defined.

(** ** The encoded query *)

Lemma hex_digit_unreserved (n : nat) : uri_unreserved (hex_digit n) = true.
Proof.
  do 16 (destruct n as [|n]; [reflexivity|]). unfold hex_digit.
  cbn [nth list_ascii_of_string]. now destruct n.
Qed.

(** X15: the composed query enters the address only percent-encoded:
    whenever [encodeURIComponent] returns, every character of the encoded
    text is an unreserved character or a percent sign, so no text of the
    body can end the [q] parameter or add another one. *)
Theorem encoded_query_is_inert (s encoded : string) :
  encodeURIComponent s = inr encoded ->
  (forall ch, has_char ch encoded = true ->
              uri_unreserved ch = true \/ ch = "%"%char) /\
  forallb (fun ch => negb (has_char ch encoded))
          (list_ascii_of_string "&=#?/+ ") = true.
Proof.
  unfold encodeURIComponent. destruct (has_lone_surrogate s); [discriminate|].
  intros Henc. injection Henc as <-.
  assert (H : forall ch, has_char ch (percent_encode_all s) = true ->
                         uri_unreserved ch = true \/ ch = "%"%char).
  { intros ch. induction s as [|c s IH]; [discriminate|].
    cbn [percent_encode_all]. rewrite has_char_app. intros Hc.
    apply orb_true_iff in Hc as [Hc|Hc]; [|exact (IH Hc)].
    destruct (uri_unreserved c) eqn:Eu.
    - cbn [has_char] in Hc. rewrite orb_false_r in Hc.
      apply Ascii.eqb_eq in Hc. subst ch. now left.
    - unfold percent_encode in Hc. cbn [has_char] in Hc.
      rewrite orb_false_r in Hc.
      apply orb_true_iff in Hc as [Hc|Hc];
        [apply Ascii.eqb_eq in Hc; subst ch; now right|].
      apply orb_true_iff in Hc as [Hc|Hc];
        apply Ascii.eqb_eq in Hc; subst ch; left; apply hex_digit_unreserved. }
  split; [exact H|].
  apply forallb_forall. intros ch Hin. apply negb_true_iff.
  destruct (has_char ch (percent_encode_all s)) eqn:E; [|reflexivity].
  destruct (H ch E) as [Hu| ->].
  - simpl in Hin.
    repeat (destruct Hin as [<-|Hin]; [discriminate Hu|]). destruct Hin.
  - simpl in Hin.
    repeat (destruct Hin as [Hin|Hin]; [discriminate Hin|]). destruct Hin.
Qed.

Lemma encoded_query_is_inert_witness :
  (forall ch, has_char ch "a%26b%3Dc%20ros%C3%A9%20wine%20bottle" = true ->
              uri_unreserved ch = true \/ ch = "%"%char) /\
  forallb (fun ch => negb (has_char ch "a%26b%3Dc%20ros%C3%A9%20wine%20bottle"))
          (list_ascii_of_string "&=#?/+ ") = true.
Proof.
  apply (encoded_query_is_inert "a&b=c rosé wine bottle"
           "a%26b%3Dc%20ros%C3%A9%20wine%20bottle").
  reflexivity.
Defined.

(** ** The brace pattern *)

(** X24: the pattern has no match exactly when no opening brace of the
    text is followed by a closing brace. *)
Theorem regex_no_match_iff (s : string) :
  regex_match s = None <->
  (forall a b c, s <> a ++ String "{" (b ++ String "}" c)).
Proof.
  split; [apply regex_match_none|].
  intros H. destruct (regex_match s) as [m|] eqn:E; [|reflexivity].
  destruct (regex_match_some s m E) as (pre & mid & post & Hs & _).
  exfalso. exact (H pre mid post Hs).
Qed.

(** X25: the text handed to [JSON.parse] is its own extract: applying the
    extraction to it again gives it back. *)
Theorem parse_target_idempotent (s : string) :
  parse_target (parse_target s) = parse_target s.
Proof.
  unfold parse_target at 2 3. destruct (regex_match s) as [m|] eqn:E.
  - destruct (regex_match_some s m E) as (pre & mid & post & _ & -> & _).
    unfold parse_target.
    pose proof (regex_match_first_last "" mid "" eq_refl eq_refl) as H.
    cbn [append] in H. now rewrite H.
  - unfold parse_target. now rewrite E.
Qed.

(** ** One answer per run *)

(** X19: every run sends exactly one body.  It is the empty text for the
    preflight of a protected function and a JSON value in every other
    case. *)
Theorem one_answer_per_run (W : World) (config : FunctionsConfig)
  (ep : Endpoint) (req : Request) :
  exists b,
    sent (response (handler W config ep req)) = [b] /\
    match b with
    | SentText t => t = "" /\ protected ep = true /\ method req = "OPTIONS"
    | SentJson _ => protected ep = false \/ method req <> "OPTIONS"
    end.
Proof.
  destruct ep; [| |eexists; split; [reflexivity | now left]].
  - analyze_cases W config req
      ltac:(run_leaf; eexists;
            (split; [reflexivity|];
             first [ right; now apply String.eqb_neq
                   | repeat split; now apply String.eqb_eq ])).
  - search_cases W config req
      ltac:(run_leaf; eexists;
            (split; [reflexivity|];
             first [ right; now apply String.eqb_neq
                   | repeat split; now apply String.eqb_eq ])).
Qed.

(** ** What a run does not depend on *)

(** X22: the handlers use the verified principal only to see that there
    is one: with every principal of the identity service replaced by
    another, the run of every function on every request is the same, in
    its answer and in its calls. *)
Theorem caller_identity_unused (f : DecodedIdToken -> DecodedIdToken) (W : World)
  (config : FunctionsConfig) (ep : Endpoint) (req : Request) :
  response (handler (with_principal f W) config ep req)
  = response (handler W config ep req) /\
  calls (handler (with_principal f W) config ep req)
  = calls (handler W config ep req).
Proof.
  unfold response, calls. now rewrite principal_irrelevant.
Qed.

(** X23: when the answers of the upstream services do not depend on the
    key or the address they are called with, two configurations with the
    same values set give the same answer to every request: the answer
    depends on the secrets only through which of them are set. *)
Theorem secret_values_unused (W : World) (c1 c2 : FunctionsConfig)
  (ep : Endpoint) (req : Request) :
  same_presence c1 c2 -> secret_blind W ->
  response (handler W c1 ep req) = response (handler W c2 ep req).
Proof.
  intros Hsame Hblind. now apply secret_values_irrelevant.
Qed.

Lemma secret_values_unused_witness :
  response (handler happy_world sample_config AnalyzeWineLabel (post_as_alice label_body))
  = response (handler happy_world other_config AnalyzeWineLabel (post_as_alice label_body)).
Proof.
  apply (secret_values_unused happy_world sample_config other_config
           AnalyzeWineLabel (post_as_alice label_body)).
  - repeat split.
  - split; intros; reflexivity.
Defined.

(** ** The shape of the bodies *)

(** X27: the JSON body of an error answer (status 400 or more) is an
    object whose first field is [error] with a text; the JSON body of a
    200 answer of a protected function is an object whose first field is
    [success: true]. *)
Theorem body_shape (W : World) (config : FunctionsConfig)
  (ep : Endpoint) (req : Request) (v : JSON) :
  In (SentJson v) (sent (response (handler W config ep req))) ->
  (400 <= statusCode (response (handler W config ep req)) ->
   exists msg rest, v = JObj (("error", JStr msg) :: rest)) /\
  (statusCode (response (handler W config ep req)) = 200 -> protected ep = true ->
   exists rest, v = JObj (("success", JBool true) :: rest)).
Proof.
  destruct ep;
    [| |intros _; split; [intros Hs; exfalso; cbn in Hs; lia | discriminate]].
  - analyze_cases W config req
      ltac:(run_leaf; intros Hin; split_texts;
            (split;
             [intros Hs; first [eexists _, _; reflexivity | exfalso; lia]
             |intros Hs Hp; first [eexists; reflexivity | discriminate Hs]])).
  - search_cases W config req
      ltac:(run_leaf; intros Hin; split_texts;
            (split;
             [intros Hs; first [eexists _, _; reflexivity | exfalso; lia]
             |intros Hs Hp; first [eexists; reflexivity | discriminate Hs]])).
Qed.

Lemma body_shape_witness :
  (400 <= statusCode (response (handler happy_world sample_config SearchWineImage
                                  get_request)) ->
   exists msg rest,
     JObj [("error", JStr "Method not allowed")] = JObj (("error", JStr msg) :: rest)) /\
  (statusCode (response (handler happy_world sample_config SearchWineImage
                           get_request)) = 200 ->
   protected SearchWineImage = true ->
   exists rest, JObj [("error", JStr "Method not allowed")]
                = JObj (("success", JBool true) :: rest)).
Proof.
  apply (body_shape happy_world sample_config SearchWineImage get_request
           (JObj [("error", JStr "Method not allowed")])).
  left. reflexivity.
Defined.

Ltac search_500_cause :=
  eexists; split; [reflexivity|]; split; [simpl; tauto|];
  first [ left; eexists; split; [right; left; reflexivity | eassumption]
        | right; split; [reflexivity | simpl; tauto] ].

Ltac search_500_leaf :=
  run_leaf; intros Hs; first [discriminate Hs | search_500_cause].

(** X28: [searchWineImage] answers 500 in two cases only, both logged
    under [Google search error:] and answered
    [{error: "Failed to search images", message}]: the search request was
    made and failed, with the message of that failure; or the address
    could not be composed, and then no upstream call is made and the
    message is that of the runtime, [URI malformed] or
    [Cannot convert object to primitive value].  Missing credentials and
    an empty result are answered 200. *)
Theorem search_500_causes (W : World) (config : FunctionsConfig) (req : Request) :
  statusCode (response (searchWineImage W config req)) = 500 ->
  exists e,
    response (searchWineImage W config req)
    = mkRes 500 cors_headers
        [SentJson (JObj [("error", JStr "Failed to search images");
                         ("message", JStr (message e))])] /\
    In (CallConsoleError "Google search error:" e)
       (calls (searchWineImage W config req)) /\
    ((exists url, In (CallFetch url) (calls (searchWineImage W config req)) /\
                  fetch_json W url = inl e) \/
     (no_upstream (calls (searchWineImage W config req)) /\
      In (message e) ["URI malformed"; "Cannot convert object to primitive value"])).
Proof.
  search_cases W config req search_500_leaf.
Qed.

Lemma search_500_causes_witness :
  (exists e,
     response (searchWineImage failing_world sample_config
                 (post_as_alice (search_body None)))
     = mkRes 500 cors_headers
         [SentJson (JObj [("error", JStr "Failed to search images");
                          ("message", JStr (message e))])] /\
     In (CallConsoleError "Google search error:" e)
        (calls (searchWineImage failing_world sample_config
                  (post_as_alice (search_body None)))) /\
     ((exists url,
         In (CallFetch url)
            (calls (searchWineImage failing_world sample_config
                      (post_as_alice (search_body None)))) /\
         fetch_json failing_world url = inl e) \/
      (no_upstream (calls (searchWineImage failing_world sample_config
                             (post_as_alice (search_body None)))) /\
       In (message e) ["URI malformed"; "Cannot convert object to primitive value"]))) /\
  response (searchWineImage happy_world sample_config
              (post_as_alice (mkBody None (Some (JStr lone_surrogate)) None)))
  = mkRes 500 cors_headers
      [SentJson (JObj [("error", JStr "Failed to search images");
                       ("message", JStr "URI malformed")])].
Proof.
  split.
  - apply (search_500_causes failing_world sample_config
             (post_as_alice (search_body None))).
    reflexivity.
  - destruct (search_500_causes happy_world sample_config
                (post_as_alice (mkBody None (Some (JStr lone_surrogate)) None))
                eq_refl) as (e & Hr & _). reflexivity.
Defined.
